(** * DeepVO: the multi-view geometry module [src/geometry/epipolar.py]

    A shallow embedding of class [EpipolarGeometry]: its constructor, the
    descriptor matcher [match_features] and the relative pose estimator
    [estimate_pose].

    The Python code delegates the numerical work to OpenCV ([cv2]).  The
    three OpenCV entry points it uses are kept as _calls_ of a small
    program monad: a method is a program that reads the instance, issues
    calls and continues with their answers.  A program is run against an
    implementation of the calls, which may answer or raise; theorems
    quantify over every implementation, and state what they assume of
    OpenCV, when they assume something, as an explicit contract. *)

From Stdlib Require Import ZArith List Bool Lia.
From Stdlib Require Import Floats.
From stdpp Require Import base option list sorting strings gmap.

Set Warnings "-inexact-float".
Local Open Scope Z_scope.

(** ** NumPy arrays *)

(** A two-dimensional array, row by row.  NumPy arrays are rectangular;
    [rect] states it where a contract needs it. *)
Definition ndarray (A : Type) : Type := list (list A).

(** [a.shape] of a two-dimensional array. *)
Definition shape {A} (a : ndarray A) : nat * nat :=
  (length a, match a with [] => 0%nat | row :: _ => length row end).

(** [a.ravel()]: the entries in row-major order. *)
Definition ravel {A} (a : ndarray A) : list A := concat a.

(** [a] has [r] rows of [c] entries each. *)
Definition rect {A} (r c : nat) (a : ndarray A) : Prop :=
  length a = r ∧ Forall (λ row, length row = c) a.

#[export] Instance rect_dec {A} r c (a : ndarray A) : Decision (rect r c a).
Proof. unfold rect. apply _. Defined.

(** ** OpenCV values and calls *)

(** [cv2.DMatch] *)
Record DMatch : Type := mkDMatch {
  queryIdx : Z;
  trainIdx : Z;
  imgIdx : Z;
  distance : float
}.

Inductive NormType : Type := NORM_L1 | NORM_L2 | NORM_HAMMING.
Inductive Method : Type := RANSAC | LMEDS | USAC_DEFAULT | USAC_MAGSAC.

(** The OpenCV entry points used by the module, each with the arguments the
    module passes and, as index, the type of its answer.  An array result
    that the Python binding may report as [None] is an [option]. *)
Inductive cv2_call : Type → Type :=
| BFMatcher_knnMatch (normType : NormType) (crossCheck : bool)
    (queryDescriptors trainDescriptors : ndarray float) (k : nat)
    : cv2_call (list (list DMatch))
| findEssentialMat (points1 points2 : ndarray float) (cameraMatrix : ndarray float)
    (method : Method) (prob threshold : float)
    : cv2_call (option (ndarray float) * option (ndarray Z))
| recoverPose (E : ndarray float) (points1 points2 : ndarray float)
    (cameraMatrix : ndarray float) (mask : option (ndarray Z))
    : cv2_call (Z * ndarray float * ndarray float * ndarray Z).

(** ** Python exceptions *)

Inductive exn : Type :=
| KeyError (key : string)
| AttributeError (name : string)
| ValueError_not_enough_values (expected got : nat)
| ValueError_too_many_values (expected : nat)
| cv2_error (msg : string).

(** ** Programs *)

(** A program returns, or issues an OpenCV call and continues with what the
    call did: its answer, or the exception it raised. *)
Inductive py (A : Type) : Type :=
| Return (a : A)
| Call {X : Type} (c : cv2_call X) (k : exn + X → py A).
Arguments Return {A} a.
Arguments Call {A X} c k.

Fixpoint py_bind {A B} (p : py A) (f : A → py B) : py B :=
  match p with
  | Return a => f a
  | Call c k => Call c (λ x, py_bind (k x) f)
  end.

(** The instance [self]: its attribute dictionary. *)
Abbreviation instance := (gmap string (ndarray float)).

(** How a method call ends: it returns a value or raises, and leaves the
    instance in some state either way. *)
Inductive outcome (A : Type) : Type :=
| Returned (a : A) (self : instance)
| Raised (e : exn) (self : instance).
Arguments Returned {A} a self.
Arguments Raised {A} e self.

(** A method body: a program over the instance it runs on. *)
Definition M (A : Type) : Type := instance → py (outcome A).

#[export] Instance M_ret : MRet M := λ A a self, Return (Returned a self).
#[export] Instance M_bind : MBind M := λ A B f m self,
  py_bind (m self) (λ r, match r with
                         | Returned a self' => f a self'
                         | Raised e self' => Return (Raised e self')
                         end).

Definition raise {A} (e : exn) : M A := λ self, Return (Raised e self).

(** A pure computation that may raise. *)
Definition lift {A} (r : exn + A) : M A :=
  match r with
  | inl e => raise e
  | inr a => mret a
  end.

(** A call: an exception raised inside OpenCV propagates. *)
Definition call {X} (c : cv2_call X) : M X := λ self,
  Call c (λ r, Return match r with
                      | inl e => Raised e self
                      | inr x => Returned x self
                      end).

(** [self.name] *)
Definition getattr (name : string) : M (ndarray float) := λ self,
  match self !! name with
  | Some v => Return (Returned v self)
  | None => Return (Raised (AttributeError name) self)
  end.

(** [self.name = v] *)
Definition setattr (name : string) (v : ndarray float) : M unit := λ self,
  Return (Returned tt (<[name := v]> self)).

(** [d[key]] on a dictionary *)
Definition getitem (d : gmap string float) (key : string) : M float :=
  match d !! key with
  | Some v => mret v
  | None => raise (KeyError key)
  end.

(** ** Running a program *)

(** An implementation of the OpenCV calls: each call answers or raises. *)
Definition cv2_impl : Type := ∀ X, cv2_call X → exn + X.

Fixpoint run {A} (cv2 : cv2_impl) (p : py A) : A :=
  match p with
  | Return a => a
  | Call c k => run cv2 (k (cv2 _ c))
  end.

(** The calls a run issues, in order. *)
Inductive issued : Type :=
| Issued (X : Type) (c : cv2_call X).
Arguments Issued {X} c.

Fixpoint calls {A} (cv2 : cv2_impl) (p : py A) : list issued :=
  match p with
  | Return _ => []
  | Call c k => Issued c :: calls cv2 (k (cv2 _ c))
  end.

(** ** class EpipolarGeometry *)

Module EpipolarGeometry.

(** [__init__(self, camera_intrinsics)] *)
Definition __init__ (camera_intrinsics : gmap string float) : M unit :=
  fx ← getitem camera_intrinsics "fx";
  fy ← getitem camera_intrinsics "fy";
  cx ← getitem camera_intrinsics "cx";
  cy ← getitem camera_intrinsics "cy";
  setattr "K" [ [fx; 0; cx];
                [0; fy; cy];
                [0;  0;  1] ]%float.

(** Lowe's ratio test, [m.distance < 0.8 * n.distance], in binary64. *)
Definition ratio_test (m n : DMatch) : bool :=
  (distance m <? 0.8 * distance n)%float.

(** The loop [for m, n in knn_matches: if ...: good_matches.append(m)],
    from the rows still to visit and the list built so far.  Unpacking a row
    that does not hold exactly two matches raises [ValueError]. *)
Fixpoint ratio_loop (knn_matches : list (list DMatch)) (good_matches : list DMatch)
  : exn + list DMatch :=
  match knn_matches with
  | [] => inr good_matches
  | [m; n] :: rest =>
      if ratio_test m n
      then ratio_loop rest (good_matches ++ [m])
      else ratio_loop rest good_matches
  | row :: _ =>
      if (length row <? 2)%nat
      then inl (ValueError_not_enough_values 2 (length row))
      else inl (ValueError_too_many_values 2)
  end.

Definition match_features (desc1 desc2 : ndarray float) : M (list Z * list Z) :=
  knn_matches ← call (BFMatcher_knnMatch NORM_L2 false desc1 desc2 2);
  good_matches ← lift (ratio_loop knn_matches []);
  let idx1 := queryIdx <$> good_matches in
  let idx2 := trainIdx <$> good_matches in
  mret (idx1, idx2).

(** What [estimate_pose] returns: a triple, each component an array or
    [None]. *)
Definition pose : Type :=
  option (ndarray float) * option (ndarray float) * option (list bool).

Definition estimate_pose (kpts1 kpts2 : ndarray float) : M pose :=
  if (length kpts1 <? 5)%nat then mret (None, None, None)
  else
    K ← getattr "K";
    '(E, mask) ← call (findEssentialMat kpts1 kpts2 K USAC_MAGSAC 0.9999 1.0);
    match E with
    | None => mret (None, None, None)
    | Some E =>
        if decide (shape E ≠ (3, 3)%nat) then mret (None, None, None)
        else
          K ← getattr "K";
          '(_, R, t, mask_pose) ← call (recoverPose E kpts1 kpts2 K mask);
          let inlier_mask := (λ v, 0 <? v) <$> ravel mask_pose in
          mret (Some R, Some t, Some inlier_mask)
    end.

End EpipolarGeometry.

(** * Vocabulary of the properties *)

Import EpipolarGeometry.

(** The instance a method call leaves behind. *)
Definition state_of {A} (o : outcome A) : instance :=
  match o with
  | Returned _ self | Raised _ self => self
  end.

(** The rows of [knn_matches] as the loop unpacks them. *)
Definition row_of (p : DMatch * DMatch) : list DMatch := [p.1; p.2].

Definition passes (p : DMatch * DMatch) : Prop := ratio_test p.1 p.2.

#[local] Instance passes_dec p : Decision (passes p).
Proof. unfold passes. apply _. Defined.

Definition no_estimate : pose := (None, None, None).

(** The mask [estimate_pose] returns for the mask of [recoverPose]. *)
Definition inlier_mask_of (mask_pose : ndarray Z) : list bool :=
  (λ v, 0 <? v) <$> ravel mask_pose.

(** Entry [k] of an N x 1 mask marks an inlier. *)
Definition inlier (mask : ndarray Z) (k : nat) : Prop :=
  ∃ v, mask !! k = Some [v] ∧ 0 < v.

(** * What the module relies on from OpenCV

    The contracts below are what OpenCV documents for the three calls;
    a theorem that needs one names it as a hypothesis. *)

(** What the module relies on from [BFMatcher.knnMatch] without cross-check:
    one row per query descriptor, each holding [k] matches, or as many as
    there are train descriptors when these are fewer than [k]. *)
Definition knn_rows (cv2 : cv2_impl) : Prop :=
  ∀ normType query train k knn_matches,
    cv2 _ (BFMatcher_knnMatch normType false query train k) = inr knn_matches →
    length knn_matches = length query ∧
    Forall (λ row, length row = Nat.min k (length train)) knn_matches.

(** The rows come in the order of the query descriptors: the matches of row
    [i] are those of query [i]. *)
Definition knn_query_rows (cv2 : cv2_impl) : Prop :=
  ∀ normType query train k knn_matches,
    cv2 _ (BFMatcher_knnMatch normType false query train k) = inr knn_matches →
    ∀ i row m, knn_matches !! i = Some row → m ∈ row → queryIdx m = Z.of_nat i.

(** [findEssentialMat], when it answers a matrix, answers with it a mask of
    one entry per correspondence. *)
Definition fit_mask_rows (cv2 : cv2_impl) : Prop :=
  ∀ points1 points2 K method prob threshold E mask,
    cv2 _ (findEssentialMat points1 points2 K method prob threshold)
    = inr (Some E, mask) →
    ∃ fit_mask, mask = Some fit_mask ∧ rect (length points1) 1 fit_mask.

(** The mask [recoverPose] answers holds one entry per correspondence. *)
Definition pose_mask_rows (cv2 : cv2_impl) : Prop :=
  ∀ E points1 points2 K mask good R t mask_pose,
    cv2 _ (recoverPose E points1 points2 K mask) = inr (good, R, t, mask_pose) →
    rect (length points1) 1 mask_pose.

(** Given a mask, [recoverPose] marks in its answer the correspondences
    that the mask marks and that pass the cheirality check for the pose it
    answers; [positive_depth K R t x1 x2] stands for that check. *)
Definition pose_mask_refines
    (positive_depth : ndarray float → ndarray float → ndarray float →
                      list float → list float → Prop)
    (cv2 : cv2_impl) : Prop :=
  ∀ E points1 points2 K mask good R t mask_pose,
    cv2 _ (recoverPose E points1 points2 K (Some mask))
    = inr (good, R, t, mask_pose) →
    rect (length points1) 1 mask_pose ∧
    ∀ k x1 x2, points1 !! k = Some x1 → points2 !! k = Some x2 →
      inlier mask_pose k ↔ inlier mask k ∧ positive_depth K R t x1 x2.

(** ** Stand-ins for OpenCV

    Executable implementations of the calls, used to evaluate the methods on
    concrete inputs.  The matcher is the exhaustive search OpenCV documents
    for [BFMatcher.knnMatch]: one row per query descriptor, holding its [k]
    nearest train descriptors by increasing distance, or all of them when
    there are fewer than [k]. *)

Module Reference.

(** Euclidean distance of two descriptors. *)
Definition norm_l2 (a b : list float) : float :=
  PrimFloat.sqrt
    (foldl (λ acc xy, acc + (xy.1 - xy.2) * (xy.1 - xy.2))%float 0%float (zip a b)).

Fixpoint insert_by_distance (m : DMatch) (row : list DMatch) : list DMatch :=
  match row with
  | [] => [m]
  | x :: rest =>
      if (distance m <=? distance x)%float then m :: row
      else x :: insert_by_distance m rest
  end.

Definition knn_row (k : nat) (train : ndarray float) (i : nat) (q : list float)
  : list DMatch :=
  take k (foldr insert_by_distance []
            (imap (λ j d, mkDMatch (Z.of_nat i) (Z.of_nat j) 0 (norm_l2 q d)) train)).

Definition knnMatch (query train : ndarray float) (k : nat) : list (list DMatch) :=
  imap (knn_row k train) query.

(** An implementation whose essential-matrix fit answers [fit] and whose
    pose recovery answers [R], [t] and the mask it was given (every
    correspondence, when it was given none); a mask that does not hold one
    entry per point is refused. *)
Definition cv2_with
    (fit : ndarray float → option (ndarray float) * option (ndarray Z))
    (R t : ndarray float) : cv2_impl := λ X c,
  match c in cv2_call X return exn + X with
  | BFMatcher_knnMatch _ _ query train k => inr (knnMatch query train k)
  | findEssentialMat points1 _ _ _ _ _ => inr (fit points1)
  | recoverPose _ points1 _ _ mask =>
      let all := replicate (length points1) [1] in
      let mask := default all mask in
      if decide (rect (length points1) 1 mask)
      then inr (Z.of_nat (length (filter (λ row, row ≠ [0]) mask)), R, t, mask)
      else inl (cv2_error "Assertion failed: npoints == mask.checkVector(1)")
  end.

(** The scene of the module's verification block: intrinsics, ten points
    and their radial expansion about the principal point. *)
Definition intrinsics : gmap string float :=
  {[ "fx" := 800; "fy" := 800; "cx" := 320; "cy" := 240 ]}%float.

Definition pts1 : ndarray float :=
  [ [320; 240]; [330; 240]; [320; 250]; [310; 240]; [320; 230];
    [400; 300]; [250; 180]; [450; 200]; [200; 400]; [350; 350] ]%float.

Definition pts2 : ndarray float :=
  (λ p, zip_with (λ x c, x + (x - c) * 0.1)%float p [320; 240]%float) <$> pts1.

(** Pure forward translation: [R = I], [t = (0, 0, 1)], [E = [t]x R]. *)
Definition eye3 : ndarray float := [ [1; 0; 0]; [0; 1; 0]; [0; 0; 1] ]%float.
Definition t_forward : ndarray float := [ [0]; [0]; [1] ]%float.
Definition E_forward : ndarray float := [ [0; -1; 0]; [1; 0; 0]; [0; 0; 0] ]%float.

Definition cv2_forward : cv2_impl :=
  cv2_with (λ points1, (Some E_forward, Some (replicate (length points1) [1])))
           eye3 t_forward.

(** A fit that keeps the correspondences at even positions only. *)
Definition cv2_outliers : cv2_impl :=
  cv2_with (λ points1,
              (Some E_forward,
               Some (imap (λ i _, [if Nat.even i then 1 else 0]) points1)))
           eye3 t_forward.

(** A fit that finds no essential matrix. *)
Definition cv2_degenerate : cv2_impl :=
  cv2_with (λ points1, (None, Some (replicate (length points1) [0]))) eye3 t_forward.

(** A fit that reports two stacked solutions, a 6x3 array. *)
Definition cv2_stacked : cv2_impl :=
  cv2_with (λ points1, (Some (E_forward ++ E_forward),
                        Some (replicate (length points1) [1]))) eye3 t_forward.

(** An implementation in which every call raises. *)
Definition cv2_raising : cv2_impl := λ X _, inl (cv2_error "Assertion failed").

(** The instance [EpipolarGeometry(intrinsics)]. *)
Definition K0 : ndarray float :=
  [ [800; 0; 320]; [0; 800; 240]; [0; 0; 1] ]%float.
Definition geo : instance := {[ "K" := K0 ]}.

End Reference.

(** Two queries at the same place, two train descriptors far apart. *)
Definition twin_queries : ndarray float := [ [0]; [0] ]%float.
Definition far_apart : ndarray float := [ [0]; [10] ]%float.

Definition four_queries : ndarray float := [ [0]; [7]; [4]; [5] ]%float.
Definition three_trains : ndarray float := [ [0]; [5]; [10] ]%float.

(** * The verification block of [epipolar.py]

    The block under [if __name__ == "__main__"]: it builds an estimator for
    the mock intrinsics, estimates the pose of the mock scene and prints
    three lines.  What [print] writes is the value the program returns. *)

(** One call of [print]: a text alone, or a text followed by an array or
    [None]. *)
Inductive printed : Type :=
| Text (text : string)
| Labelled (text : string) (value : option (ndarray float)).

Definition main : py (exn + list printed) :=
  let intrinsics := Reference.intrinsics in
  let pts1 := Reference.pts1 in
  let pts2 := Reference.pts2 in
  py_bind ((_ ← EpipolarGeometry.__init__ intrinsics;
           EpipolarGeometry.estimate_pose pts1 pts2) ∅)
    (λ r, match r with
          | Raised e _ => Return (inl e)
          | Returned (R, t, mask) _ =>
              Return (inr [ Text "Epipolar geometry module verification passed.";
                            Labelled "Recovered Rotation Matrix R:
" R;
                            Labelled "Recovered Translation Vector t:
" t ])
          end).

(** * The trajectory visualizer [src/visualizer.py]

    Class [TrajectoryVisualizer3D] keeps the camera path in three lists and
    redraws it through matplotlib.  The matplotlib objects it holds (figure,
    axes, line) are handles; every matplotlib call, and [print], is a call
    of a program monad of the same kind as above, run against an
    implementation that answers or raises.  A method reached through
    attributes of an object ([fig.patch.set_facecolor],
    [ax.xaxis.label.set_color]) is one call on that object; keyword
    arguments are the call's arguments, under their names. *)

Module Visualizer.

Definition handle : Type := nat.

(** A colour as [get_facecolor] reports it. *)
Definition rgba : Type := float * float * float * float.

Inductive mpl_call : Type → Type :=
| plt_ion : mpl_call ()
| plt_ioff : mpl_call ()
| plt_show : mpl_call ()
| plt_pause (interval : float) : mpl_call ()
| plt_figure (figsize : Z * Z) : mpl_call handle
| Figure_add_subplot (fig : handle) (position : Z) (projection : string)
    : mpl_call handle
| Figure_patch_set_facecolor (fig : handle) (color : string) : mpl_call ()
| Figure_get_facecolor (fig : handle) : mpl_call rgba
| Figure_savefig (fig : handle) (fname : string) (dpi : Z)
    (bbox_inches : string) (facecolor : rgba) : mpl_call ()
| Axes_set_facecolor (ax : handle) (color : string) : mpl_call ()
| Axes_axis_label_set_color (ax : handle) (axis : string) (color : string)
    : mpl_call ()
| Axes_tick_params (ax : handle) (axis : string) (colors : string) : mpl_call ()
| Axes_spines_values (ax : handle) : mpl_call (list handle)
| Spine_set_color (spine : handle) (color : string) : mpl_call ()
| Axes_set_title (ax : handle) (label : string) (color : string) (pad : Z)
    : mpl_call ()
| Axes_set_xlabel (ax : handle) (label : string) : mpl_call ()
| Axes_set_ylabel (ax : handle) (label : string) : mpl_call ()
| Axes_set_zlabel (ax : handle) (label : string) : mpl_call ()
| Axes_plot (ax : handle) (xs ys zs : list float) (color : string)
    (linewidth : Z) (label : string) : mpl_call (list handle)
| Axes_scatter (ax : handle) (xs ys zs : list Z) (color marker : string)
    (s : Z) (label : string) : mpl_call ()
| Axes_legend (ax : handle) (facecolor edgecolor : string) : mpl_call handle
| Legend_get_texts (legend : handle) : mpl_call (list handle)
| Text_set_color (text : handle) (color : string) : mpl_call ()
| Line_set_data (line : handle) (xs ys : list float) : mpl_call ()
| Line_set_3d_properties (line : handle) (zs : list float) : mpl_call ()
| Axes_set_xlim (ax : handle) (left right : float) : mpl_call ()
| Axes_set_ylim (ax : handle) (bottom top : float) : mpl_call ()
| Axes_set_zlim (ax : handle) (bottom top : float) : mpl_call ()
| print (line : string) : mpl_call ().

Inductive vexn : Type :=
| ValueError_empty_sequence (function : string)
| ValueError_unpack (expected got : nat)
| mpl_error (msg : string).

(** Programs over these calls. *)
Inductive prog (A : Type) : Type :=
| Ret (a : A)
| Do {X : Type} (c : mpl_call X) (k : vexn + X → prog A).
Arguments Ret {A} a.
Arguments Do {A X} c k.

Fixpoint prog_bind {A B} (p : prog A) (f : A → prog B) : prog B :=
  match p with
  | Ret a => f a
  | Do c k => Do c (λ x, prog_bind (k x) f)
  end.

Definition mpl_impl : Type := ∀ X, mpl_call X → vexn + X.

Fixpoint run {A} (mpl : mpl_impl) (p : prog A) : A :=
  match p with
  | Ret a => a
  | Do c k => run mpl (k (mpl _ c))
  end.

Inductive drawn : Type :=
| Drawn (X : Type) (c : mpl_call X).
Arguments Drawn {X} c.

Fixpoint trace {A} (mpl : mpl_impl) (p : prog A) : list drawn :=
  match p with
  | Ret _ => []
  | Do c k => Drawn c :: trace mpl (k (mpl _ c))
  end.

(** The instance: the attributes [__init__] sets. *)
Record visualizer : Type := mkVisualizer {
  fig : handle;
  ax : handle;
  xs : list float;
  ys : list float;
  zs : list float;
  line : handle
}.

(** Code that runs before the instance is complete: [__init__]. *)
Definition P (A : Type) : Type := prog (vexn + A).

#[export] Instance P_ret : MRet P := λ A a, Ret (inr a).
#[export] Instance P_bind : MBind P := λ A B f m,
  prog_bind m (λ r, match r with
                    | inl e => Ret (inl e)
                    | inr a => f a
                    end).

Definition P_call {X} (c : mpl_call X) : P X := Do c Ret.
Definition P_raise {A} (e : vexn) : P A := Ret (inl e).

(** [for item in items: body(item)] *)
Fixpoint for_each {A} (items : list A) (body : A → P ()) : P () :=
  match items with
  | [] => mret ()
  | item :: rest => _ ← body item; for_each rest body
  end.

(** How a method call ends, as for the estimator. *)
Inductive outcome (A : Type) : Type :=
| Returned (a : A) (self : visualizer)
| Raised (e : vexn) (self : visualizer).
Arguments Returned {A} a self.
Arguments Raised {A} e self.

Definition state_of {A} (o : outcome A) : visualizer :=
  match o with
  | Returned _ self | Raised _ self => self
  end.

Definition V (A : Type) : Type := visualizer → prog (outcome A).

#[export] Instance V_ret : MRet V := λ A a self, Ret (Returned a self).
#[export] Instance V_bind : MBind V := λ A B f m self,
  prog_bind (m self) (λ r, match r with
                           | Returned a self' => f a self'
                           | Raised e self' => Ret (Raised e self')
                           end).

Definition call {X} (c : mpl_call X) : V X := λ self,
  Do c (λ r, Ret match r with
                 | inl e => Raised e self
                 | inr x => Returned x self
                 end).

Definition lift {A} (r : vexn + A) : V A := λ self,
  Ret match r with
      | inl e => Raised e self
      | inr a => Returned a self
      end.

Definition get : V visualizer := λ self, Ret (Returned self self).
Definition put (self' : visualizer) : V () := λ _, Ret (Returned () self').

(** [min(l)] and [max(l)] on a list of floats: the first item, replaced by
    each later item that compares [<] (for [min]) or [>] (for [max]) with
    the one kept so far; [ValueError] on an empty list. *)
Definition py_min (l : list float) : vexn + float :=
  match l with
  | [] => inl (ValueError_empty_sequence "min")
  | first :: rest =>
      inr (foldl (λ best item, if (item <? best)%float then item else best)
                 first rest)
  end.

Definition py_max (l : list float) : vexn + float :=
  match l with
  | [] => inl (ValueError_empty_sequence "max")
  | first :: rest =>
      inr (foldl (λ best item, if (best <? item)%float then item else best)
                 first rest)
  end.

(** [__init__(self)] *)
Definition __init__ : P visualizer :=
  _ ← P_call plt_ion;
  fig ← P_call (plt_figure (8, 8));
  ax ← P_call (Figure_add_subplot fig 111 "3d");
  _ ← P_call (Figure_patch_set_facecolor fig "#2b2b2b");
  _ ← P_call (Axes_set_facecolor ax "#2b2b2b");
  _ ← P_call (Axes_axis_label_set_color ax "x" "white");
  _ ← P_call (Axes_axis_label_set_color ax "y" "white");
  _ ← P_call (Axes_axis_label_set_color ax "z" "white");
  _ ← P_call (Axes_tick_params ax "x" "white");
  _ ← P_call (Axes_tick_params ax "y" "white");
  _ ← P_call (Axes_tick_params ax "z" "white");
  spines ← P_call (Axes_spines_values ax);
  _ ← for_each spines (λ spine, P_call (Spine_set_color spine "white"));
  _ ← P_call (Axes_set_title ax "DeepVO 3D Trajectory (Draggable)" "white" 20);
  _ ← P_call (Axes_set_xlabel ax "X (Right)");
  _ ← P_call (Axes_set_ylabel ax "Z (Forward)");
  _ ← P_call (Axes_set_zlabel ax "Y (Down/Up)");
  lines ← P_call (Axes_plot ax [] [] [] "#ff0055" 2 "Camera Path");
  line ← match lines with
         | [line] => mret line
         | _ => P_raise (ValueError_unpack 1 (length lines))
         end;
  _ ← P_call (Axes_scatter ax [0] [0] [0] "cyan" "*" 100 "Start (0,0,0)");
  legend ← P_call (Axes_legend ax "#2b2b2b" "white");
  texts ← P_call (Legend_get_texts legend);
  _ ← for_each texts (λ text, P_call (Text_set_color text "white"));
  mret (mkVisualizer fig ax [] [] [] line).

(** [update(self, x, y, z)] *)
Definition update (x y z : float) : V () :=
  self ← get;
  _ ← put (mkVisualizer (fig self) (ax self)
             (xs self ++ [x]) (ys self ++ [y]) (zs self ++ [z]) (line self));
  self ← get;
  _ ← call (Line_set_data (line self) (xs self) (zs self));
  _ ← call (Line_set_3d_properties (line self) (ys self));
  let margin := 2.0%float in
  lo ← lift (py_min (xs self));
  hi ← lift (py_max (xs self));
  _ ← call (Axes_set_xlim (ax self) (lo - margin) (hi + margin));
  lo ← lift (py_min (zs self));
  hi ← lift (py_max (zs self));
  _ ← call (Axes_set_ylim (ax self) (lo - margin) (hi + margin));
  lo ← lift (py_min (ys self));
  hi ← lift (py_max (ys self));
  _ ← call (Axes_set_zlim (ax self) (lo - margin) (hi + margin));
  call (plt_pause 0.001).

(** [close(self, save_path=None)]: [save_path] is [None] or a string, and
    counts as true when it is a string that is not empty. *)
Definition close (save_path : option string) : V () :=
  _ ← call plt_ioff;
  _ ← match save_path with
      | Some (String _ _ as path) =>
          self ← get;
          facecolor ← call (Figure_get_facecolor (fig self));
          _ ← call (Figure_savefig (fig self) path 300 "tight" facecolor);
          call (print ("📸 3D 轨迹超清截图已自动保存至: " +:+ path))
      | _ => mret ()
      end;
  call plt_show.

End Visualizer.

(** * Vocabulary of the further properties *)

(** The intrinsic matrix [__init__] builds. *)
Definition intrinsic_matrix (fx fy cx cy : float) : ndarray float :=
  [ [fx; 0; cx]; [0; fy; cy]; [0; 0; 1] ]%float.

(** The keys [__init__] reads, in the order it reads them. *)
Definition intrinsic_keys : list string := ["fx"; "fy"; "cx"; "cy"].

(** The first of these keys that a dictionary lacks. *)
Definition first_missing (camera_intrinsics : gmap string float) : option string :=
  snd <$> list_find (λ key, camera_intrinsics !! key = None) intrinsic_keys.

(** [EpipolarGeometry(camera_intrinsics).method(...)]: construction, then a
    method call on the new instance. *)
Definition construct_then {A} (camera_intrinsics : gmap string float) (method : M A)
  : M A :=
  _ ← __init__ camera_intrinsics; method.

(** The calls [estimate_pose] may issue on [kpts1], [kpts2] from an instance
    [self] against [cv2]: the fit with the module's constants on these
    points and the instance's [K]; the pose recovery on the same points and
    [K], with the 3x3 matrix and the mask that this fit answered. *)
Definition estimator_call (cv2 : cv2_impl) (kpts1 kpts2 : ndarray float)
    (self : instance) (i : issued) : Prop :=
  match i with
  | Issued c =>
      match c with
      | BFMatcher_knnMatch _ _ _ _ _ => False
      | findEssentialMat points1 points2 K method prob threshold =>
          points1 = kpts1 ∧ points2 = kpts2 ∧ self !! "K" = Some K ∧
          method = USAC_MAGSAC ∧ prob = 0.9999%float ∧ threshold = 1.0%float
      | recoverPose E points1 points2 K mask =>
          points1 = kpts1 ∧ points2 = kpts2 ∧ self !! "K" = Some K ∧
          shape E = (3, 3)%nat ∧
          cv2 _ (findEssentialMat kpts1 kpts2 K USAC_MAGSAC 0.9999 1.0)
          = inr (Some E, mask)
      end
  end.

(** The visualizer with one more point recorded. *)
Definition recorded (self : Visualizer.visualizer) (x y z : float)
  : Visualizer.visualizer :=
  Visualizer.mkVisualizer
    (Visualizer.fig self) (Visualizer.ax self)
    (Visualizer.xs self ++ [x]) (Visualizer.ys self ++ [y])
    (Visualizer.zs self ++ [z]) (Visualizer.line self).

(** The instance after a series of [update] calls, one per point, each
    continuing from the instance the one before left, returned or not. *)
Definition after_updates (mpl : Visualizer.mpl_impl)
    (points : list (float * float * float)) (self : Visualizer.visualizer)
  : Visualizer.visualizer :=
  foldl (λ self p,
           Visualizer.state_of
             (Visualizer.run mpl (Visualizer.update p.1.1 p.1.2 p.2 self)))
        self points.

(** An implementation in which every call answers. *)
Definition answers (mpl : Visualizer.mpl_impl) : Prop :=
  ∀ X (c : Visualizer.mpl_call X), ∃ x, mpl X c = inr x.

(** [lo] and [hi] are items of [l], no item of [l] compares below [lo] or
    above [hi], and when no item is a NaN every item lies between them. *)
Definition extremes (l : list float) (lo hi : float) : Prop :=
  lo ∈ l ∧ hi ∈ l ∧
  (∀ v, v ∈ l → (v <? lo)%float = false ∧ (hi <? v)%float = false) ∧
  (Forall (λ v, is_nan v = false) l →
   ∀ v, v ∈ l → (lo <=? v)%float = true ∧ (v <=? hi)%float = true).

(** The file a call saves the figure to, if it is [savefig]. *)
Definition saved_to (d : Visualizer.drawn) : option string :=
  match d with
  | Visualizer.Drawn c =>
      match c with
      | Visualizer.Figure_savefig _ fname _ _ _ => Some fname
      | _ => None
      end
  end.

(** The calls among [cs], all without answer value, that are issued when
    they are made in turn until one raises, and the exception that ends
    them. *)
Fixpoint issued_in_turn (mpl : Visualizer.mpl_impl)
    (cs : list (Visualizer.mpl_call ())) : list Visualizer.drawn :=
  match cs with
  | [] => []
  | c :: rest =>
      Visualizer.Drawn c ::
      match mpl _ c with
      | inl _ => []
      | inr _ => issued_in_turn mpl rest
      end
  end.

Fixpoint first_failure (mpl : Visualizer.mpl_impl)
    (cs : list (Visualizer.mpl_call ())) : option Visualizer.vexn :=
  match cs with
  | [] => None
  | c :: rest =>
      match mpl _ c with
      | inl e => Some e
      | inr _ => first_failure mpl rest
      end
  end.

(** The six calls of a redraw, for the limits found on each axis. *)
Definition redraw (self : Visualizer.visualizer)
    (xlo xhi ylo yhi zlo zhi : float) : list (Visualizer.mpl_call ()) :=
  [ Visualizer.Line_set_data (Visualizer.line self)
      (Visualizer.xs self) (Visualizer.zs self);
    Visualizer.Line_set_3d_properties (Visualizer.line self) (Visualizer.ys self);
    Visualizer.Axes_set_xlim (Visualizer.ax self) (xlo - 2) (xhi + 2);
    Visualizer.Axes_set_ylim (Visualizer.ax self) (ylo - 2) (yhi + 2);
    Visualizer.Axes_set_zlim (Visualizer.ax self) (zlo - 2) (zhi + 2);
    Visualizer.plt_pause 0.001 ]%float.

(** A stand-in for matplotlib in which every call answers: figure 1, axes
    2, line 3, legend 4, four spines, two legend texts, and the face colour
    '#2b2b2b'. *)
Definition mpl_canvas : Visualizer.mpl_impl := λ X c,
  match c in Visualizer.mpl_call X return Visualizer.vexn + X with
  | Visualizer.plt_figure _ => inr 1%nat
  | Visualizer.Figure_add_subplot _ _ _ => inr 2%nat
  | Visualizer.Axes_plot _ _ _ _ _ _ _ => inr [3%nat]
  | Visualizer.Axes_legend _ _ _ => inr 4%nat
  | Visualizer.Axes_spines_values _ => inr [10; 11; 12; 13]%nat
  | Visualizer.Legend_get_texts _ => inr [20; 21]%nat
  | Visualizer.Figure_get_facecolor _ =>
      inr (43 / 255, 43 / 255, 43 / 255, 1)%float
  | _ => inr ()
  end.

(** A stand-in in which drawing always fails. *)
Definition mpl_broken : Visualizer.mpl_impl := λ X _,
  inl (Visualizer.mpl_error "no display").

(** A visualizer that has recorded two points. *)
Definition two_points : Visualizer.visualizer :=
  Visualizer.mkVisualizer 1%nat 2%nat [0; 1]%float [0; -1]%float [0; 5]%float 3%nat.

(** The calls of [__init__] up to the creation of the line. *)
Definition set_up_calls (fig ax : Visualizer.handle)
    (spines : list Visualizer.handle) : list Visualizer.drawn :=
  [ Visualizer.Drawn Visualizer.plt_ion;
    Visualizer.Drawn (Visualizer.plt_figure (8, 8));
    Visualizer.Drawn (Visualizer.Figure_add_subplot fig 111 "3d");
    Visualizer.Drawn (Visualizer.Figure_patch_set_facecolor fig "#2b2b2b");
    Visualizer.Drawn (Visualizer.Axes_set_facecolor ax "#2b2b2b");
    Visualizer.Drawn (Visualizer.Axes_axis_label_set_color ax "x" "white");
    Visualizer.Drawn (Visualizer.Axes_axis_label_set_color ax "y" "white");
    Visualizer.Drawn (Visualizer.Axes_axis_label_set_color ax "z" "white");
    Visualizer.Drawn (Visualizer.Axes_tick_params ax "x" "white");
    Visualizer.Drawn (Visualizer.Axes_tick_params ax "y" "white");
    Visualizer.Drawn (Visualizer.Axes_tick_params ax "z" "white");
    Visualizer.Drawn (Visualizer.Axes_spines_values ax) ]
  ++ (Visualizer.Drawn ∘ (λ spine, Visualizer.Spine_set_color spine "white")
      <$> spines)
  ++ [ Visualizer.Drawn
         (Visualizer.Axes_set_title ax "DeepVO 3D Trajectory (Draggable)" "white" 20);
       Visualizer.Drawn (Visualizer.Axes_set_xlabel ax "X (Right)");
       Visualizer.Drawn (Visualizer.Axes_set_ylabel ax "Z (Forward)");
       Visualizer.Drawn (Visualizer.Axes_set_zlabel ax "Y (Down/Up)");
       Visualizer.Drawn
         (Visualizer.Axes_plot ax [] [] [] "#ff0055" 2 "Camera Path") ].

(** The calls that follow it. *)
Definition legend_calls (ax legend : Visualizer.handle)
    (texts : list Visualizer.handle) : list Visualizer.drawn :=
  [ Visualizer.Drawn
      (Visualizer.Axes_scatter ax [0] [0] [0] "cyan" "*" 100 "Start (0,0,0)");
    Visualizer.Drawn (Visualizer.Axes_legend ax "#2b2b2b" "white");
    Visualizer.Drawn (Visualizer.Legend_get_texts legend) ]
  ++ (Visualizer.Drawn ∘ (λ text, Visualizer.Text_set_color text "white")
      <$> texts).

(** * Properties *)

(** ** Running the methods *)

Section Matcher.
Context (cv2 : cv2_impl).

(** A run of [match_features]: the call, then the loop. *)
Lemma run_match_features desc1 desc2 self :
  run cv2 (match_features desc1 desc2 self) =
  match cv2 _ (BFMatcher_knnMatch NORM_L2 false desc1 desc2 2) with
  | inl e => Raised e self
  | inr knn_matches =>
      match ratio_loop knn_matches [] with
      | inl e => Raised e self
      | inr good_matches =>
          Returned (queryIdx <$> good_matches, trainIdx <$> good_matches) self
      end
  end.
Proof.
  unfold match_features, mbind, M_bind, call. simpl.
  destruct (cv2 _ _) as [e|knn_matches]; [done|]. simpl.
  by destruct (ratio_loop knn_matches []).
Qed.

Lemma match_features_returned desc1 desc2 self idx1 idx2 self' :
  run cv2 (match_features desc1 desc2 self) = Returned (idx1, idx2) self' →
  ∃ knn_matches good_matches,
    cv2 _ (BFMatcher_knnMatch NORM_L2 false desc1 desc2 2) = inr knn_matches ∧
    ratio_loop knn_matches [] = inr good_matches ∧
    idx1 = queryIdx <$> good_matches ∧ idx2 = trainIdx <$> good_matches ∧
    self' = self.
Proof.
  rewrite run_match_features.
  destruct (cv2 _ _) as [e|knn_matches]; [done|].
  destruct (ratio_loop knn_matches []) as [e|good_matches] eqn:Hloop; [done|].
  intros [= <- <- <-]. by exists knn_matches, good_matches.
Qed.
End Matcher.

(** ** The ratio loop *)

(** When the loop ends normally every row held two matches, and what it
    appended is the nearest match of each row that passes the test, in the
    order of the rows. *)
Lemma ratio_loop_inr knn_matches acc good_matches :
  ratio_loop knn_matches acc = inr good_matches →
  ∃ pairs, knn_matches = row_of <$> pairs ∧
           good_matches = acc ++ (fst <$> filter passes pairs).
Proof.
  induction knn_matches as [|row rest IH] in acc |- *; simpl.
  - intros [= <-]. exists []. by rewrite app_nil_r.
  - destruct row as [|m [|n [|? ?]]]; simpl; try done.
    destruct (ratio_test m n) eqn:Hr; intros (pairs & -> & ->)%IH;
      exists ((m, n) :: pairs); (split; [done|]).
    + rewrite filter_cons_True; [|by unfold passes; simpl; rewrite Hr].
      by rewrite <-app_assoc.
    + rewrite filter_cons_False; [done|].
      unfold passes; simpl. rewrite Hr. exact id.
Qed.

(** A row that does not hold exactly two matches stops the loop with
    [ValueError], whatever was accepted before it. *)
Lemma ratio_loop_short_row knn_matches acc :
  knn_matches ≠ [] →
  Forall (λ row, length row = 1%nat) knn_matches →
  ratio_loop knn_matches acc = inl (ValueError_not_enough_values 2 1).
Proof.
  destruct knn_matches as [|row rest]; [done|].
  intros _ [Hrow _]%Forall_cons. simpl.
  by destruct row as [|m [|n [|? ?]]].
Qed.

(** Every accepted match is the head of a row that passes the ratio test. *)
Lemma accepted_in_row knn_matches good_matches m :
  ratio_loop knn_matches [] = inr good_matches →
  m ∈ good_matches →
  ∃ n, [m; n] ∈ knn_matches ∧ ratio_test m n = true.
Proof.
  intros (pairs & -> & ->)%ratio_loop_inr. simpl.
  intros ([m' n] & -> & [Hp Hin]%list_elem_of_filter)%list_elem_of_fmap.
  exists n. split.
  - apply list_elem_of_fmap. by exists (m', n).
  - unfold passes in Hp. simpl in *. by apply Is_true_true.
Qed.

(** The query indices the loop keeps increase when those of the rows do. *)
Lemma kept_queries_increase pairs (first : nat) :
  (∀ i p, pairs !! i = Some p → queryIdx p.1 = Z.of_nat (first + i)) →
  StronglySorted Z.lt (queryIdx ∘ fst <$> filter passes pairs) ∧
  Forall (λ q, Z.of_nat first ≤ q) (queryIdx ∘ fst <$> filter passes pairs).
Proof.
  induction pairs as [|p pairs IH] in first |- *; intros Hrows.
  { split; constructor. }
  destruct (IH (S first)) as [Hsorted Hfrom].
  { intros i p' Hp'. rewrite (Hrows (S i) p') by done. f_equal. lia. }
  pose proof (Hrows 0%nat p eq_refl) as Hhead.
  rewrite Nat.add_0_r in Hhead.
  destruct (decide (passes p)) as [Hp|Hp].
  - rewrite filter_cons_True by done. simpl. rewrite Hhead. split.
    + apply SSorted_cons; [done|].
      eapply Forall_impl; [exact Hfrom|]. simpl. lia.
    + constructor; [lia|].
      eapply Forall_impl; [exact Hfrom|]. simpl. lia.
  - rewrite filter_cons_False by done. split; [done|].
    eapply Forall_impl; [exact Hfrom|]. simpl. lia.
Qed.

(** ** Running the pose estimator *)

(** Follows [estimate_pose] through its two calls and its checks, by cases
    on what OpenCV did. *)
Ltac step_estimate_pose cv2 Hlen HK :=
  unfold estimate_pose; rewrite Hlen;
  unfold mbind, M_bind, getattr, call; rewrite HK; simpl;
  destruct (cv2 _ (findEssentialMat _ _ _ _ _ _)) as [?|[[?|] ?]]; simpl;
  [ | destruct (decide _); simpl;
      [ | rewrite HK; simpl;
          destruct (cv2 _ (recoverPose _ _ _ _ _)) as [?|[[[? ?] ?] ?]] ] | ].

Section Estimator.
Context (cv2 : cv2_impl).

Lemma run_estimate_pose_few kpts1 kpts2 self :
  (length kpts1 < 5)%nat →
  estimate_pose kpts1 kpts2 self = Return (Returned no_estimate self).
Proof.
  intros Hlen%Nat.ltb_lt. unfold estimate_pose. by rewrite Hlen.
Qed.

Lemma run_estimate_pose_no_K kpts1 kpts2 self :
  (5 ≤ length kpts1)%nat → self !! "K" = None →
  estimate_pose kpts1 kpts2 self = Return (Raised (AttributeError "K") self).
Proof.
  intros Hlen%Nat.ltb_ge HK. unfold estimate_pose. rewrite Hlen.
  unfold mbind, M_bind, getattr. by rewrite HK.
Qed.

(** A run of [estimate_pose] on five points or more: the fit, the check of
    its answer, the pose recovery. *)
Lemma run_estimate_pose kpts1 kpts2 self K :
  (5 ≤ length kpts1)%nat → self !! "K" = Some K →
  run cv2 (estimate_pose kpts1 kpts2 self) =
  match cv2 _ (findEssentialMat kpts1 kpts2 K USAC_MAGSAC 0.9999 1.0) with
  | inl e => Raised e self
  | inr (None, _) => Returned no_estimate self
  | inr (Some E, mask) =>
      if decide (shape E ≠ (3, 3)%nat) then Returned no_estimate self
      else
        match cv2 _ (recoverPose E kpts1 kpts2 K mask) with
        | inl e => Raised e self
        | inr (_, R, t, mask_pose) =>
            Returned (Some R, Some t, Some (inlier_mask_of mask_pose)) self
        end
  end.
Proof.
  intros Hlen%Nat.ltb_ge HK. by step_estimate_pose cv2 Hlen HK.
Qed.

Lemma calls_estimate_pose kpts1 kpts2 self K :
  (5 ≤ length kpts1)%nat → self !! "K" = Some K →
  calls cv2 (estimate_pose kpts1 kpts2 self) =
  let fit := findEssentialMat kpts1 kpts2 K USAC_MAGSAC 0.9999 1.0 in
  Issued fit ::
  match cv2 _ fit with
  | inr (Some E, mask) =>
      if decide (shape E ≠ (3, 3)%nat) then []
      else [Issued (recoverPose E kpts1 kpts2 K mask)]
  | _ => []
  end.
Proof.
  intros Hlen%Nat.ltb_ge HK. by step_estimate_pose cv2 Hlen HK.
Qed.

End Estimator.

(** What a returned value tells about the run. *)
Lemma estimate_pose_returned cv2 kpts1 kpts2 self r self' :
  run cv2 (estimate_pose kpts1 kpts2 self) = Returned r self' →
  self' = self ∧
  (r = no_estimate ∨
   ∃ K E mask good R t mask_pose,
     (5 ≤ length kpts1)%nat ∧ self !! "K" = Some K ∧
     cv2 _ (findEssentialMat kpts1 kpts2 K USAC_MAGSAC 0.9999 1.0)
     = inr (Some E, mask) ∧
     shape E = (3, 3)%nat ∧
     cv2 _ (recoverPose E kpts1 kpts2 K mask) = inr (good, R, t, mask_pose) ∧
     r = (Some R, Some t, Some (inlier_mask_of mask_pose))).
Proof.
  destruct (Nat.lt_ge_cases (length kpts1) 5) as [Hlen|Hlen].
  { rewrite run_estimate_pose_few by done. simpl. intros [= <- <-]. auto. }
  destruct (self !! "K") as [K|] eqn:HK.
  2: { by rewrite run_estimate_pose_no_K. }
  rewrite (run_estimate_pose cv2 _ _ _ K) by done.
  destruct (cv2 _ _) as [e|[[E|] mask]] eqn:Hfit; [done| |intros [= <- <-]; auto].
  destruct (decide _) as [Hshape|Hshape]; [intros [= <- <-]; auto|].
  destruct (cv2 _ (recoverPose _ _ _ _ _)) as [e|[[[good R] t] mask_pose]] eqn:Hpose;
    [done|].
  intros [= <- <-]. split; [done|]. right.
  exists K, E, mask, good, R, t, mask_pose.
  repeat split; try done. by destruct (decide (shape E = (3, 3)%nat)).
Qed.

(** ** Masks *)

Lemma length_ravel_rect {A} r c (a : ndarray A) :
  rect r c a → length (ravel a) = (r * c)%nat.
Proof.
  unfold ravel. intros [<- Hrows].
  induction Hrows as [|row a Hrow _ IH]; simpl; [done|].
  by rewrite length_app, IH, Hrow.
Qed.

Lemma inlier_mask_of_lookup r (mask : ndarray Z) k :
  rect r 1 mask → inlier_mask_of mask !! k = Some true ↔ inlier mask k.
Proof.
  unfold inlier_mask_of, ravel, inlier. intros [_ Hrows]. clear r.
  induction Hrows as [|row a Hrow _ IH] in k |- *; simpl.
  { split; [done|]. by intros (v & ? & _). }
  destruct row as [|v [|? ?]]; try done. simpl.
  destruct k as [|k]; simpl; [|apply IH].
  split.
  - intros [= Hv%Z.ltb_lt]. by exists v.
  - intros (v' & [= <-] & Hv%Z.ltb_lt). by rewrite Hv.
Qed.

Lemma rect_replicate {A} r c (row : list A) :
  length row = c → rect r c (replicate r row).
Proof.
  intros Hrow. split; [by rewrite length_replicate|].
  by apply Forall_replicate.
Qed.

(** ** The stand-ins meet the contracts *)

Lemma length_insert_by_distance m row :
  length (Reference.insert_by_distance m row) = S (length row).
Proof.
  induction row as [|x rest IH]; simpl; [done|].
  destruct (_ <=? _)%float; simpl; by rewrite ?IH.
Qed.

Lemma length_sorted_row (ms : list DMatch) :
  length (foldr Reference.insert_by_distance [] ms) = length ms.
Proof.
  induction ms as [|m ms IH]; simpl; [done|].
  by rewrite length_insert_by_distance, IH.
Qed.

Lemma reference_knn_rows fit R t : knn_rows (Reference.cv2_with fit R t).
Proof.
  intros normType query train k knn_matches [= <-]. unfold Reference.knnMatch.
  split; [by rewrite length_imap|].
  apply Forall_forall. intros row (i & q & -> & _)%elem_of_lookup_imap_1.
  unfold Reference.knn_row.
  by rewrite length_take, length_sorted_row, length_imap.
Qed.

Lemma insert_by_distance_Forall (P : DMatch → Prop) m row :
  P m → Forall P row → Forall P (Reference.insert_by_distance m row).
Proof.
  intros Hm. induction 1 as [|x rest Hx Hrest IH]; simpl; [by repeat constructor|].
  destruct (_ <=? _)%float; by repeat constructor.
Qed.

Lemma sorted_row_Forall {A} (P : DMatch → Prop) (f : nat → A → DMatch) l :
  (∀ j d, P (f j d)) →
  Forall P (foldr Reference.insert_by_distance [] (imap f l)).
Proof.
  induction l as [|d l IH] in f |- *; intros Hf; simpl; [constructor|].
  apply insert_by_distance_Forall; [done|]. apply IH. intros j d'. apply Hf.
Qed.

Lemma reference_knn_query_rows fit R t :
  knn_query_rows (Reference.cv2_with fit R t).
Proof.
  intros normType query train k knn_matches [= <-] i row.
  unfold Reference.knnMatch.
  intros m (q & _ & ->)%list_lookup_imap_Some. revert m.
  unfold Reference.knn_row. apply (proj1 (Forall_forall _ _)), Forall_take.
  apply sorted_row_Forall. done.
Qed.

Lemma reference_pose_mask_rows fit R t :
  pose_mask_rows (Reference.cv2_with fit R t).
Proof.
  intros E points1 points2 K mask good R' t' mask_pose. simpl.
  destruct (decide _) as [Hrect|]; [|done]. by intros [= _ _ _ <-].
Qed.

Lemma reference_pose_mask_refines fit R t :
  pose_mask_refines (λ _ _ _ _ _, True) (Reference.cv2_with fit R t).
Proof.
  intros E points1 points2 K mask good R' t' mask_pose. simpl.
  destruct (decide _) as [Hrect|]; [|done]. intros [= _ _ _ <-].
  split; [done|]. tauto.
Qed.

Lemma forward_fit_mask_rows : fit_mask_rows Reference.cv2_forward.
Proof.
  intros points1 points2 K method prob threshold E mask [= _ <-].
  eexists. split; [done|]. by apply rect_replicate.
Qed.

Lemma outliers_fit_mask_rows : fit_mask_rows Reference.cv2_outliers.
Proof.
  intros points1 points2 K method prob threshold E mask [= _ <-].
  eexists. split; [done|]. split; [by rewrite length_imap|].
  apply Forall_forall. by intros row (i & x & -> & _)%elem_of_lookup_imap_1.
Qed.

(** ** The methods on the scene of the verification block *)

Example init_scene :
  run Reference.cv2_forward (__init__ Reference.intrinsics ∅)
  = Returned () Reference.geo.
Proof. reflexivity. Qed.

Example init_missing_key :
  run Reference.cv2_forward (__init__ (delete "cy" Reference.intrinsics) ∅)
  = Raised (KeyError "cy") ∅.
Proof. reflexivity. Qed.

Example radial_expansion :
  Reference.pts2 =
  [ [320; 240]; [331; 240]; [320; 251]; [309; 240]; [320; 229];
    [408; 306]; [243; 174]; [463; 196]; [188; 416]; [353; 361] ]%float.
Proof. reflexivity. Qed.

Example forward_scene :
  run Reference.cv2_forward
    (estimate_pose Reference.pts1 Reference.pts2 Reference.geo)
  = Returned (Some Reference.eye3, Some Reference.t_forward,
              Some (replicate 10 true)) Reference.geo.
Proof. reflexivity. Qed.

Example degenerate_scene :
  run Reference.cv2_degenerate
    (estimate_pose Reference.pts1 Reference.pts2 Reference.geo)
  = Returned (None, None, None) Reference.geo.
Proof. reflexivity. Qed.

Example raising_fit :
  run Reference.cv2_raising
    (estimate_pose Reference.pts1 Reference.pts2 Reference.geo)
  = Raised (cv2_error "Assertion failed") Reference.geo.
Proof. reflexivity. Qed.

Example twin_queries_matched :
  Reference.knnMatch twin_queries far_apart 2
  = [ [mkDMatch 0 0 0 0; mkDMatch 0 1 0 10];
      [mkDMatch 1 0 0 0; mkDMatch 1 1 0 10] ]%float.
Proof. reflexivity. Qed.

(** * The claims *)

(** ** The matcher *)

(** C3: every correspondence [match_features] returns is the nearest match
    of a row of the k-nearest-neighbour answer whose distance is below 0.8
    times the distance of the second nearest match of that row. *)
Theorem match_features_ratio_bound cv2 desc1 desc2 self idx1 idx2 self' :
  run cv2 (match_features desc1 desc2 self) = Returned (idx1, idx2) self' →
  ∃ knn_matches,
    cv2 _ (BFMatcher_knnMatch NORM_L2 false desc1 desc2 2) = inr knn_matches ∧
    ∀ k i j, idx1 !! k = Some i → idx2 !! k = Some j →
      ∃ nearest secondNearest,
        [nearest; secondNearest] ∈ knn_matches ∧
        queryIdx nearest = i ∧ trainIdx nearest = j ∧
        (distance nearest <? 0.8 * distance secondNearest)%float = true.
Proof.
  intros (knn_matches & good_matches & Hcall & Hloop & -> & -> & _)
    %match_features_returned.
  exists knn_matches. split; [done|]. intros k i j Hi Hj.
  apply list_lookup_fmap_Some in Hi as (m & -> & Hm).
  apply list_lookup_fmap_Some in Hj as (m' & -> & Hm').
  assert (m' = m) as -> by congruence.
  destruct (accepted_in_row knn_matches good_matches m) as (n & Hrow & Hratio);
    [done|by eapply list_elem_of_lookup_2|].
  by exists m, n.
Qed.

Lemma match_features_ratio_bound_witness :
  ∃ knn_matches,
    Reference.cv2_forward _
      (BFMatcher_knnMatch NORM_L2 false four_queries three_trains 2)
    = inr knn_matches ∧
    ∀ k i j, [0; 1; 2; 3] !! k = Some i → [0; 1; 1; 1] !! k = Some j →
      ∃ nearest secondNearest,
        [nearest; secondNearest] ∈ knn_matches ∧
        queryIdx nearest = i ∧ trainIdx nearest = j ∧
        (distance nearest <? 0.8 * distance secondNearest)%float = true.
Proof.
  apply (match_features_ratio_bound
           Reference.cv2_forward four_queries three_trains ∅
           [0; 1; 2; 3] [0; 1; 1; 1] ∅).
  vm_compute. reflexivity.
Defined.

(** C4: with a single train descriptor and at least one query, a matcher
    that answers as OpenCV documents makes [match_features] raise
    [ValueError] while unpacking the first row; it returns nothing. *)
Theorem match_features_one_train_descriptor cv2 desc1 desc2 self :
  knn_rows cv2 →
  desc1 ≠ [] → length desc2 = 1%nat →
  (∃ knn_matches,
     cv2 _ (BFMatcher_knnMatch NORM_L2 false desc1 desc2 2) = inr knn_matches) →
  run cv2 (match_features desc1 desc2 self)
  = Raised (ValueError_not_enough_values 2 1) self.
Proof.
  intros Hrows Hne Hlen [knn_matches Hcall].
  rewrite run_match_features, Hcall.
  destruct (Hrows _ _ _ _ _ Hcall) as [Hnum Hrow]. rewrite Hlen in Hrow.
  rewrite ratio_loop_short_row; [done| |done].
  intros ->. by destruct desc1.
Qed.

Lemma match_features_one_train_descriptor_witness :
  run Reference.cv2_forward (match_features [ [0] ]%float [ [1] ]%float ∅)
  = Raised (ValueError_not_enough_values 2 1) ∅.
Proof.
  apply match_features_one_train_descriptor;
    [apply reference_knn_rows | done | done | by eexists].
Defined.

(** C8: the correspondences are listed in the order of the rows of the
    k-nearest-neighbour answer, one row per query, so by increasing query
    index when the rows come in query order; every row that passes the
    ratio test contributes its nearest match and nothing is removed after
    that, so a train index may be listed more than once (as it is for two
    equal queries); the matcher is called without cross-check. *)
Theorem match_features_query_order :
  (∀ cv2 desc1 desc2 self idx1 idx2 self',
     run cv2 (match_features desc1 desc2 self) = Returned (idx1, idx2) self' →
     ∃ pairs,
       cv2 _ (BFMatcher_knnMatch NORM_L2 false desc1 desc2 2)
       = inr (row_of <$> pairs) ∧
       idx1 = queryIdx ∘ fst <$> filter passes pairs ∧
       idx2 = trainIdx ∘ fst <$> filter passes pairs ∧
       (knn_query_rows cv2 → StronglySorted Z.lt idx1)) ∧
  run Reference.cv2_forward (match_features twin_queries far_apart ∅)
  = Returned ([0; 1], [0; 0]) ∅.
Proof.
  split; [|by vm_compute].
  intros cv2 desc1 desc2 self idx1 idx2 self'
    (knn_matches & good_matches & Hcall & Hloop & -> & -> & _)
    %match_features_returned.
  apply ratio_loop_inr in Hloop as (pairs & -> & ->).
  exists pairs. simpl. rewrite <-!list_fmap_compose. do 3 (split; [done|]).
  intros Hrows. apply (kept_queries_increase pairs 0). intros i p Hp.
  apply (Hrows _ _ _ _ _ Hcall i (row_of p)); [|by left].
  by rewrite list_lookup_fmap, Hp.
Qed.

Lemma match_features_query_order_witness :
  ∃ pairs,
    Reference.cv2_forward _
      (BFMatcher_knnMatch NORM_L2 false four_queries three_trains 2)
    = inr (row_of <$> pairs) ∧
    [0; 1; 2; 3] = queryIdx ∘ fst <$> filter passes pairs ∧
    [0; 1; 1; 1] = trainIdx ∘ fst <$> filter passes pairs ∧
    (knn_query_rows Reference.cv2_forward → StronglySorted Z.lt [0; 1; 2; 3]).
Proof.
  apply (proj1 match_features_query_order
           Reference.cv2_forward four_queries three_trains ∅
           [0; 1; 2; 3] [0; 1; 1; 1] ∅).
  vm_compute. reflexivity.
Defined.

(** C10: when [match_features] returns, the two index arrays have the same
    length, the number of accepted matches, and at each position they hold
    the query index and the train index of the accepted match at that
    position. *)
Theorem match_features_parallel cv2 desc1 desc2 self idx1 idx2 self' :
  run cv2 (match_features desc1 desc2 self) = Returned (idx1, idx2) self' →
  length idx1 = length idx2 ∧
  ∃ knn_matches good_matches,
    cv2 _ (BFMatcher_knnMatch NORM_L2 false desc1 desc2 2) = inr knn_matches ∧
    ratio_loop knn_matches [] = inr good_matches ∧
    length good_matches = length idx1 ∧
    ∀ k, (k < length idx1)%nat →
      ∃ m, good_matches !! k = Some m ∧
           idx1 !! k = Some (queryIdx m) ∧ idx2 !! k = Some (trainIdx m).
Proof.
  intros (knn_matches & good_matches & Hcall & Hloop & -> & -> & _)
    %match_features_returned.
  rewrite !length_fmap. split; [done|].
  exists knn_matches, good_matches. do 3 (split; [done|]).
  intros k [m Hm]%lookup_lt_is_Some_2. exists m.
  by rewrite !list_lookup_fmap, Hm.
Qed.

Lemma match_features_parallel_witness :
  length [0; 1; 2; 3] = length [0; 1; 1; 1] ∧
  ∃ knn_matches good_matches,
    Reference.cv2_forward _
      (BFMatcher_knnMatch NORM_L2 false four_queries three_trains 2)
    = inr knn_matches ∧
    ratio_loop knn_matches [] = inr good_matches ∧
    length good_matches = length [0; 1; 2; 3] ∧
    ∀ k, (k < length [0; 1; 2; 3]%Z)%nat →
      ∃ m, good_matches !! k = Some m ∧
           [0; 1; 2; 3] !! k = Some (queryIdx m) ∧
           [0; 1; 1; 1] !! k = Some (trainIdx m).
Proof.
  apply (match_features_parallel
           Reference.cv2_forward four_queries three_trains ∅
           [0; 1; 2; 3] [0; 1; 1; 1] ∅).
  vm_compute. reflexivity.
Defined.

(** ** The pose estimator *)

(** C1: with fewer than five correspondences [estimate_pose] returns
    [(None, None, None)] and issues no OpenCV call, so no essential-matrix
    fit is attempted, whatever OpenCV would have done. *)
Theorem estimate_pose_too_few cv2 kpts1 kpts2 self :
  (length kpts1 < 5)%nat →
  run cv2 (estimate_pose kpts1 kpts2 self) = Returned (None, None, None) self ∧
  calls cv2 (estimate_pose kpts1 kpts2 self) = [].
Proof.
  intros Hlen. by rewrite run_estimate_pose_few.
Qed.

Lemma estimate_pose_too_few_witness :
  run Reference.cv2_raising
    (estimate_pose (take 4 Reference.pts1) (take 4 Reference.pts2) Reference.geo)
  = Returned (None, None, None) Reference.geo ∧
  calls Reference.cv2_raising
    (estimate_pose (take 4 Reference.pts1) (take 4 Reference.pts2) Reference.geo)
  = [].
Proof.
  apply (estimate_pose_too_few Reference.cv2_raising). simpl. lia.
Defined.

(** C5: when [estimate_pose] returns an estimate for N correspondences,
    the inlier mask is a list of booleans of length N, given that the mask
    [recoverPose] answers holds one entry per correspondence. *)
Theorem estimate_pose_mask_length cv2 kpts1 kpts2 self r self' :
  pose_mask_rows cv2 →
  run cv2 (estimate_pose kpts1 kpts2 self) = Returned r self' →
  r ≠ (None, None, None) →
  ∃ R t (inlier_mask : list bool),
    r = (Some R, Some t, Some inlier_mask) ∧
    length inlier_mask = length kpts1.
Proof.
  intros Hrows [_ [->|Hrun]]%estimate_pose_returned Hsome; [done|].
  destruct Hrun as (K & E & mask & good & R & t & mask_pose
                    & _ & _ & _ & _ & Hpose & ->).
  exists R, t, (inlier_mask_of mask_pose). split; [done|].
  unfold inlier_mask_of. rewrite length_fmap.
  rewrite (length_ravel_rect (length kpts1) 1); [lia|]. by eapply Hrows.
Qed.

Lemma estimate_pose_mask_length_witness :
  ∃ R t (inlier_mask : list bool),
    (Some Reference.eye3, Some Reference.t_forward, Some (replicate 10 true))
    = (Some R, Some t, Some inlier_mask) ∧
    length inlier_mask = length Reference.pts1.
Proof.
  apply (estimate_pose_mask_length
           Reference.cv2_forward Reference.pts1 Reference.pts2 Reference.geo
           _ Reference.geo).
  - apply reference_pose_mask_rows.
  - vm_compute. reflexivity.
  - discriminate.
Defined.

(** C6: [estimate_pose] returns either all three of [R], [t] and the mask
    or [(None, None, None)], never a triple filled in part; it returns the
    latter when there are fewer than five correspondences and when the fit
    answers no matrix or one that is not 3x3; and it raises only what an
    OpenCV call raised, so it returns whenever OpenCV answers. *)
Theorem estimate_pose_all_or_nothing cv2 kpts1 kpts2 self K :
  self !! "K" = Some K →
  (∀ r self',
     run cv2 (estimate_pose kpts1 kpts2 self) = Returned r self' →
     r = (None, None, None) ∨
     ∃ R t inlier_mask, r = (Some R, Some t, Some inlier_mask)) ∧
  ((length kpts1 < 5)%nat →
   run cv2 (estimate_pose kpts1 kpts2 self) = Returned (None, None, None) self) ∧
  (∀ E mask,
     cv2 _ (findEssentialMat kpts1 kpts2 K USAC_MAGSAC 0.9999 1.0)
     = inr (E, mask) →
     (∀ E', E = Some E' → shape E' ≠ (3, 3)%nat) →
     run cv2 (estimate_pose kpts1 kpts2 self) = Returned (None, None, None) self) ∧
  (∀ e self',
     run cv2 (estimate_pose kpts1 kpts2 self) = Raised e self' →
     ∃ X (c : cv2_call X),
       Issued c ∈ calls cv2 (estimate_pose kpts1 kpts2 self) ∧
       cv2 X c = inl e).
Proof.
  intros HK. split; [|split; [|split]].
  - intros r self' [_ [->|Hrun]]%estimate_pose_returned; [by left|right].
    destruct Hrun as (_ & _ & _ & _ & R & t & mask_pose & _ & _ & _ & _ & _ & ->).
    by exists R, t, (inlier_mask_of mask_pose).
  - intros Hlen. by rewrite run_estimate_pose_few.
  - intros E mask Hfit Hshape.
    destruct (Nat.lt_ge_cases (length kpts1) 5) as [Hlen|Hlen];
      [by rewrite run_estimate_pose_few|].
    rewrite (run_estimate_pose cv2 _ _ _ K), Hfit by done.
    destruct E as [E|]; [|done].
    destruct (decide _) as [|Hno]; [done|]. destruct Hno. by apply Hshape.
  - intros e self'.
    destruct (Nat.lt_ge_cases (length kpts1) 5) as [Hlen|Hlen];
      [by rewrite run_estimate_pose_few|].
    rewrite (run_estimate_pose cv2 _ _ _ K), (calls_estimate_pose cv2 _ _ _ K)
      by done.
    simpl.
    destruct (cv2 _ _) as [e'|[[E|] mask]] eqn:Hfit; [| |done].
    { intros [= <- _]. eexists _, _. split; [apply list_elem_of_here|done]. }
    destruct (decide _) as [|Hshape]; [done|].
    destruct (cv2 _ (recoverPose _ _ _ _ _)) as [e'|[[[good R] t] mask_pose]]
      eqn:Hpose; [|done].
    intros [= <- _]. eexists _, _.
    split; [apply list_elem_of_further, list_elem_of_here|done].
Qed.

Lemma estimate_pose_all_or_nothing_witness :
  Reference.geo !! "K" = Some Reference.K0 ∧
  run Reference.cv2_stacked
    (estimate_pose Reference.pts1 Reference.pts2 Reference.geo)
  = Returned (None, None, None) Reference.geo.
Proof.
  split; [reflexivity|].
  refine (proj1 (proj2 (proj2
    (estimate_pose_all_or_nothing
       Reference.cv2_stacked Reference.pts1 Reference.pts2 Reference.geo
       Reference.K0 _))) _ _ _ _).
  - reflexivity.
  - reflexivity.
  - intros E' [= <-]. discriminate.
Defined.

(** C7: when [estimate_pose] returns an estimate, the mask it returns is
    computed from the mask of the essential-matrix fit, which is the mask
    handed to [recoverPose]: an entry is true only if the fit marked that
    correspondence an inlier, and, among those, exactly if the
    correspondence passes the cheirality check for the returned [R] and [t],
    given that [recoverPose] refines the mask it is handed in this way. *)
Theorem estimate_pose_mask_refines
    positive_depth cv2 kpts1 kpts2 self R t inlier_mask self' :
  fit_mask_rows cv2 →
  pose_mask_refines positive_depth cv2 →
  length kpts2 = length kpts1 →
  run cv2 (estimate_pose kpts1 kpts2 self)
  = Returned (Some R, Some t, Some inlier_mask) self' →
  ∃ K E fit_mask,
    self !! "K" = Some K ∧
    cv2 _ (findEssentialMat kpts1 kpts2 K USAC_MAGSAC 0.9999 1.0)
    = inr (Some E, Some fit_mask) ∧
    (∀ k, inlier_mask !! k = Some true → inlier fit_mask k) ∧
    (∀ k x1 x2, kpts1 !! k = Some x1 → kpts2 !! k = Some x2 →
       inlier_mask !! k = Some true ↔
       inlier fit_mask k ∧ positive_depth K R t x1 x2).
Proof.
  intros Hfit_rows Hrefines Hlen [_ [?|Hrun]]%estimate_pose_returned; [done|].
  destruct Hrun as (K & E & mask & good & R' & t' & mask_pose
                    & _ & HK & Hfit & _ & Hpose & [= <- <- ->]).
  destruct (Hfit_rows _ _ _ _ _ _ _ _ Hfit) as (fit_mask & -> & Hrect).
  destruct (Hrefines _ _ _ _ _ _ _ _ _ Hpose) as [Hrect_pose Hiff].
  assert (∀ k x1 x2, kpts1 !! k = Some x1 → kpts2 !! k = Some x2 →
            inlier_mask_of mask_pose !! k = Some true ↔
            inlier fit_mask k ∧ positive_depth K R t x1 x2) as Hexact.
  { intros k x1 x2 Hx1 Hx2.
    rewrite (inlier_mask_of_lookup (length kpts1)) by done. by apply Hiff. }
  exists K, E, fit_mask. do 2 (split; [done|]). split; [|done].
  intros k Hk.
  assert (k < length kpts1)%nat as Hlt.
  { apply lookup_lt_Some in Hk. unfold inlier_mask_of in Hk.
    rewrite length_fmap, (length_ravel_rect (length kpts1) 1) in Hk by done.
    lia. }
  destruct (lookup_lt_is_Some_2 kpts1 k) as [x1 Hx1]; [done|].
  destruct (lookup_lt_is_Some_2 kpts2 k) as [x2 Hx2]; [lia|].
  by apply (Hexact k x1 x2) in Hk as [? _].
Qed.

Lemma estimate_pose_mask_refines_witness :
  ∃ K E fit_mask,
    Reference.geo !! "K" = Some K ∧
    Reference.cv2_outliers _
      (findEssentialMat Reference.pts1 Reference.pts2 K USAC_MAGSAC 0.9999 1.0)
    = inr (Some E, Some fit_mask) ∧
    (∀ k, [true; false; true; false; true; false; true; false; true; false] !! k
          = Some true → inlier fit_mask k) ∧
    (∀ k x1 x2, Reference.pts1 !! k = Some x1 → Reference.pts2 !! k = Some x2 →
       [true; false; true; false; true; false; true; false; true; false] !! k
       = Some true ↔ inlier fit_mask k ∧ True).
Proof.
  apply (estimate_pose_mask_refines (λ _ _ _ _ _, True)
           Reference.cv2_outliers Reference.pts1 Reference.pts2 Reference.geo
           Reference.eye3 Reference.t_forward _ Reference.geo).
  - apply outliers_fit_mask_rows.
  - apply reference_pose_mask_refines.
  - reflexivity.
  - vm_compute. reflexivity.
Defined.

(** C9: [__init__] builds [K] from the four intrinsics and stores it as the
    only attribute of the instance, without any OpenCV call; a call of
    [match_features] or of [estimate_pose], whether it returns or raises,
    leaves the instance as it found it: [K] is unchanged and no attribute
    is added. *)
Theorem intrinsics_never_mutated cv2 camera_intrinsics fx fy cx cy :
  camera_intrinsics !! "fx" = Some fx →
  camera_intrinsics !! "fy" = Some fy →
  camera_intrinsics !! "cx" = Some cx →
  camera_intrinsics !! "cy" = Some cy →
  run cv2 (__init__ camera_intrinsics ∅)
  = Returned () {[ "K" := [ [fx; 0; cx]; [0; fy; cy]; [0; 0; 1] ]%float ]} ∧
  (∀ self desc1 desc2,
     state_of (run cv2 (match_features desc1 desc2 self)) = self) ∧
  (∀ self kpts1 kpts2,
     state_of (run cv2 (estimate_pose kpts1 kpts2 self)) = self).
Proof.
  intros Hfx Hfy Hcx Hcy. split; [|split].
  - unfold __init__, mbind, M_bind, getitem. by rewrite Hfx, Hfy, Hcx, Hcy.
  - intros self desc1 desc2. rewrite run_match_features.
    destruct (cv2 _ _) as [e|knn_matches]; [done|].
    by destruct (ratio_loop knn_matches []).
  - intros self kpts1 kpts2.
    destruct (Nat.lt_ge_cases (length kpts1) 5) as [Hlen|Hlen];
      [by rewrite run_estimate_pose_few|].
    destruct (self !! "K") as [K|] eqn:HK;
      [|by rewrite run_estimate_pose_no_K].
    rewrite (run_estimate_pose cv2 _ _ _ K) by done.
    destruct (cv2 _ _) as [e|[[E|] mask]]; [done| |done].
    destruct (decide _); [done|].
    by destruct (cv2 _ _) as [e|[[[good R] t] mask_pose]].
Qed.

Lemma intrinsics_never_mutated_witness :
  run Reference.cv2_forward (__init__ Reference.intrinsics ∅)
  = Returned () Reference.geo ∧
  (∀ self desc1 desc2,
     state_of (run Reference.cv2_forward (match_features desc1 desc2 self))
     = self) ∧
  (∀ self kpts1 kpts2,
     state_of (run Reference.cv2_forward (estimate_pose kpts1 kpts2 self))
     = self).
Proof.
  apply (intrinsics_never_mutated Reference.cv2_forward Reference.intrinsics
           800 800 320 240)%float; reflexivity.
Defined.

(** * Further properties *)

(** ** Construction *)

Lemma init_returns camera_intrinsics fx fy cx cy self :
  camera_intrinsics !! "fx" = Some fx →
  camera_intrinsics !! "fy" = Some fy →
  camera_intrinsics !! "cx" = Some cx →
  camera_intrinsics !! "cy" = Some cy →
  __init__ camera_intrinsics self
  = Return (Returned () (<["K" := intrinsic_matrix fx fy cx cy]> self)).
Proof.
  intros Hfx Hfy Hcx Hcy.
  unfold __init__, mbind, M_bind, getitem. by rewrite Hfx, Hfy, Hcx, Hcy.
Qed.

(** X1: when the dictionary lacks one of the keys fx, fy, cx, cy, [__init__]
    raises [KeyError] for the first one missing in that order, issues no
    OpenCV call and leaves the instance without touching it: no [K] is
    stored. *)
Theorem init_missing_key_raises cv2 camera_intrinsics self key :
  first_missing camera_intrinsics = Some key →
  run cv2 (__init__ camera_intrinsics self) = Raised (KeyError key) self ∧
  calls cv2 (__init__ camera_intrinsics self) = [] ∧
  key ∈ intrinsic_keys ∧ camera_intrinsics !! key = None.
Proof.
  unfold first_missing, intrinsic_keys, __init__, mbind, M_bind, getitem.
  simpl.
  destruct (camera_intrinsics !! "fx") as [fx|] eqn:Hfx; simpl;
    [|intros [= <-]; repeat split; [set_solver|done]].
  destruct (camera_intrinsics !! "fy") as [fy|] eqn:Hfy; simpl;
    [|intros [= <-]; repeat split; [set_solver|done]].
  destruct (camera_intrinsics !! "cx") as [cx|] eqn:Hcx; simpl;
    [|intros [= <-]; repeat split; [set_solver|done]].
  destruct (camera_intrinsics !! "cy") as [cy|] eqn:Hcy; simpl;
    [done|intros [= <-]; repeat split; [set_solver|done]].
Qed.

Lemma init_missing_key_raises_witness :
  run Reference.cv2_forward
    (__init__ (delete "fy" (delete "cy" Reference.intrinsics)) Reference.geo)
  = Raised (KeyError "fy") Reference.geo ∧
  calls Reference.cv2_forward
    (__init__ (delete "fy" (delete "cy" Reference.intrinsics)) Reference.geo)
  = [] ∧
  "fy" ∈ intrinsic_keys ∧
  delete "fy" (delete "cy" Reference.intrinsics) !! "fy" = None.
Proof.
  apply (init_missing_key_raises Reference.cv2_forward). reflexivity.
Defined.



(** ** The calls of the pose estimator *)

(** X3: [estimate_pose] issues at most two OpenCV calls and never the
    matcher: a fit on exactly the two point arrays it was given, whatever
    the length of the second, with the instance's [K], MAGSAC, 0.9999 and
    1.0; and a pose recovery only for a 3x3 matrix that this fit answered,
    with the mask of the fit, the same points and the same [K].  With fewer
    than five points, or when the fit raises, answers no matrix or answers
    one that is not 3x3, the pose recovery is not called. *)
Theorem estimate_pose_call_protocol cv2 kpts1 kpts2 self :
  (length (calls cv2 (estimate_pose kpts1 kpts2 self)) ≤ 2)%nat ∧
  Forall (estimator_call cv2 kpts1 kpts2 self)
         (calls cv2 (estimate_pose kpts1 kpts2 self)) ∧
  (∀ K, self !! "K" = Some K → (5 ≤ length kpts1)%nat →
        head (calls cv2 (estimate_pose kpts1 kpts2 self))
        = Some (Issued (findEssentialMat kpts1 kpts2 K USAC_MAGSAC 0.9999 1.0))).
Proof.
  destruct (Nat.lt_ge_cases (length kpts1) 5) as [Hlen|Hlen].
  { rewrite run_estimate_pose_few by done. simpl.
    split; [lia|]. split; [constructor|]. lia. }
  destruct (self !! "K") as [K|] eqn:HK.
  2: { rewrite run_estimate_pose_no_K by done. simpl.
       split; [lia|]. split; [constructor|]. done. }
  rewrite (calls_estimate_pose cv2 _ _ _ K) by done. simpl.
  split; [|split].
  - destruct (cv2 _ _) as [e|[[E|] mask]]; simpl; try lia.
    destruct (decide _); simpl; lia.
  - constructor; [done|].
    destruct (cv2 _ _) as [e|[[E|] mask]] eqn:Hfit; try constructor.
    destruct (decide _) as [|Hshape]; constructor; [|constructor].
    simpl. repeat split; try done.
    by destruct (decide (shape E = (3, 3)%nat)).
  - by intros K' [= <-] _.
Qed.

(** X4: [estimate_pose] returns an estimate exactly when it has five points
    or more, the instance holds [K], the fit answers a 3x3 matrix and the
    pose recovery answers; [R] and [t] are then the arrays the pose recovery
    answered, returned as they are, the count it answers is dropped, and the
    mask is the test [> 0] on the flattened mask of the pose recovery. *)
Theorem estimate_pose_succeeds_iff cv2 kpts1 kpts2 self R t inlier_mask self' :
  run cv2 (estimate_pose kpts1 kpts2 self)
  = Returned (Some R, Some t, Some inlier_mask) self' ↔
  self' = self ∧ (5 ≤ length kpts1)%nat ∧
  ∃ K E mask good mask_pose,
    self !! "K" = Some K ∧
    cv2 _ (findEssentialMat kpts1 kpts2 K USAC_MAGSAC 0.9999 1.0)
    = inr (Some E, mask) ∧
    shape E = (3, 3)%nat ∧
    cv2 _ (recoverPose E kpts1 kpts2 K mask) = inr (good, R, t, mask_pose) ∧
    inlier_mask = (λ v, 0 <? v) <$> ravel mask_pose.
Proof.
  split.
  - intros [-> [?|Hrun]]%estimate_pose_returned; [done|].
    destruct Hrun as (K & E & mask & good & R' & t' & mask_pose
                      & Hlen & HK & Hfit & Hshape & Hpose & [= <- <- ->]).
    do 2 (split; [done|]). by exists K, E, mask, good, mask_pose.
  - intros (-> & Hlen & K & E & mask & good & mask_pose
            & HK & Hfit & Hshape & Hpose & ->).
    rewrite (run_estimate_pose cv2 _ _ _ K), Hfit by done.
    destruct (decide _) as [Hno|_]; [done|]. by rewrite Hpose.
Qed.

(** ** When the matcher returns *)

Lemma ratio_loop_pairs knn_matches acc :
  Forall (λ row, length row = 2%nat) knn_matches →
  ∃ good_matches, ratio_loop knn_matches acc = inr good_matches.
Proof.
  intros Hrows. induction Hrows as [|row rest Hrow _ IH] in acc |- *; simpl.
  { by eexists. }
  destruct row as [|m [|n [|? ?]]]; try done.
  destruct (ratio_test m n); apply IH.
Qed.

(** The first row that is not a pair stops the loop: what was accepted from
    the rows before it is lost. *)
Lemma ratio_loop_first_bad_row before row after acc :
  Forall (λ row, length row = 2%nat) before →
  length row ≠ 2%nat →
  ratio_loop (before ++ row :: after) acc
  = inl (if (length row <? 2)%nat
         then ValueError_not_enough_values 2 (length row)
         else ValueError_too_many_values 2).
Proof.
  intros Hbefore Hrow.
  induction Hbefore as [|pair before Hpair _ IH] in acc |- *; simpl.
  - by destruct row as [|m [|n [|? ?]]].
  - destruct pair as [|m [|n [|? ?]]]; try done.
    destruct (ratio_test m n); apply IH.
Qed.

(** X5: [match_features] returns exactly when the matcher answers and every
    row of its answer holds two matches.  Otherwise the first row that does
    not decides the outcome: [ValueError] for too few values when the row
    is shorter, for too many when it is longer, and the matches accepted
    from the rows before it are not returned. *)
Theorem match_features_returns_iff cv2 desc1 desc2 self :
  ((∃ idx1 idx2 self',
      run cv2 (match_features desc1 desc2 self) = Returned (idx1, idx2) self') ↔
   ∃ knn_matches,
     cv2 _ (BFMatcher_knnMatch NORM_L2 false desc1 desc2 2) = inr knn_matches ∧
     Forall (λ row, length row = 2%nat) knn_matches) ∧
  (∀ before row after,
     cv2 _ (BFMatcher_knnMatch NORM_L2 false desc1 desc2 2)
     = inr (before ++ row :: after) →
     Forall (λ row, length row = 2%nat) before →
     length row ≠ 2%nat →
     run cv2 (match_features desc1 desc2 self)
     = Raised (if (length row <? 2)%nat
               then ValueError_not_enough_values 2 (length row)
               else ValueError_too_many_values 2) self).
Proof.
  split; [split|].
  - intros (idx1 & idx2 & self'
            & (knn_matches & good_matches & Hcall & Hloop & _)
              %match_features_returned).
    exists knn_matches. split; [done|].
    apply ratio_loop_inr in Hloop as (pairs & -> & _).
    by apply Forall_fmap, Forall_true.
  - intros (knn_matches & Hcall & Hrows). rewrite run_match_features, Hcall.
    destruct (ratio_loop_pairs knn_matches [] Hrows) as [good_matches ->].
    by eexists _, _, _.
  - intros before row after Hcall Hbefore Hrow.
    by rewrite run_match_features, Hcall, ratio_loop_first_bad_row.
Qed.





(** ** The query side of the correspondences *)

Lemma increasing_NoDup (l : list Z) : StronglySorted Z.lt l → NoDup l.
Proof.
  induction 1 as [|x l _ IH Hx]; constructor; [|done].
  intros Hin. rewrite Forall_forall in Hx. specialize (Hx x Hin). lia.
Qed.

Lemma kept_queries_bounded pairs (n : nat) :
  (∀ i p, pairs !! i = Some p → queryIdx p.1 = Z.of_nat i) →
  length pairs = n →
  Forall (λ q, 0 ≤ q < Z.of_nat n) (queryIdx ∘ fst <$> filter passes pairs).
Proof.
  intros Hrows <-. apply Forall_forall. intros q.
  intros (p & -> & [_ Hp]%list_elem_of_filter)%list_elem_of_fmap.
  apply list_elem_of_lookup in Hp as [i Hi]. simpl.
  rewrite (Hrows i p Hi). apply lookup_lt_Some in Hi. lia.
Qed.



(** ** The order of binary64 numbers *)

Ltac compare_cases :=
  repeat match goal with
  | |- context [Z.compare ?a ?b] => destruct (Z.compare_spec a b)
  | |- context [Pos.compare_cont Eq ?a ?b] =>
      change (Pos.compare_cont Eq a b) with (Pos.compare a b);
      destruct (Pos.compare_spec a b)
  end.

Lemma SFltb_irrefl a : SFltb a a = false.
Proof.
  unfold SFltb. destruct a as [[]|[]| |[] m e]; simpl; try done;
    rewrite Z.compare_refl;
    change (Pos.compare_cont Eq m m) with (Pos.compare m m);
    by rewrite Pos.compare_refl.
Qed.

Lemma SFltb_trans a b c :
  SFltb a b = true → SFltb b c = true → SFltb a c = true.
Proof.
  unfold SFltb.
  destruct a as [[]|[]| |[] m1 e1], b as [[]|[]| |[] m2 e2],
           c as [[]|[]| |[] m3 e3];
    simpl; try done; compare_cases; simpl; try done; try lia.
Qed.

Lemma SFltb_false_leb a b :
  a ≠ S754_nan → b ≠ S754_nan → SFltb a b = false → SFleb b a = true.
Proof.
  unfold SFltb, SFleb.
  destruct a as [[]|[]| |[] m1 e1], b as [[]|[]| |[] m2 e2];
    simpl; try done; compare_cases; simpl; try done; try lia.
Qed.

Lemma is_nan_spec x : is_nan x = true ↔ Prim2SF x = S754_nan.
Proof.
  unfold is_nan. rewrite FloatAxioms.eqb_spec. unfold SFeqb.
  destruct (Prim2SF x) as [[]|[]| |[] m e]; simpl; try (split; done);
    rewrite Z.compare_refl;
    change (Pos.compare_cont Eq m m) with (Pos.compare m m);
    rewrite Pos.compare_refl; simpl; split; done.
Qed.

Lemma ltb_irrefl x : (x <? x)%float = false.
Proof. rewrite FloatAxioms.ltb_spec. apply SFltb_irrefl. Qed.

Lemma ltb_trans x y z :
  (x <? y)%float = true → (y <? z)%float = true → (x <? z)%float = true.
Proof. rewrite !FloatAxioms.ltb_spec. apply SFltb_trans. Qed.

Lemma ltb_false_leb x y :
  is_nan x = false → is_nan y = false →
  (x <? y)%float = false → (y <=? x)%float = true.
Proof.
  rewrite FloatAxioms.ltb_spec, FloatAxioms.leb_spec.
  intros Hx Hy. apply SFltb_false_leb.
  - intros Hn%is_nan_spec. congruence.
  - intros Hn%is_nan_spec. congruence.
Qed.

Lemma ltb_true_not_nan x y :
  (x <? y)%float = true → is_nan x = false ∧ is_nan y = false.
Proof.
  rewrite FloatAxioms.ltb_spec. intros Hlt.
  split; apply not_true_is_false; intros Hn%is_nan_spec; rewrite Hn in Hlt.
  - done.
  - unfold SFltb in Hlt. by destruct (Prim2SF x).
Qed.

Lemma mul_nan_r x y : is_nan y = true → is_nan (x * y) = true.
Proof.
  rewrite !is_nan_spec, FloatAxioms.mul_spec. intros ->.
  unfold SF64mul, SFmul. by destruct (Prim2SF x).
Qed.

(** ** The ratio test on NaN *)

(** X9: a row in which the distance of the nearest or of the second
    nearest match is a NaN never passes the ratio test, so no correspondence
    is returned for it. *)
Theorem ratio_test_rejects_nan m n :
  is_nan (distance m) = true ∨ is_nan (distance n) = true →
  ratio_test m n = false.
Proof.
  intros Hnan. apply not_true_is_false. unfold ratio_test.
  intros [Hm Hn]%ltb_true_not_nan.
  destruct Hnan as [Hnan|Hnan]; [congruence|].
  apply (mul_nan_r 0.8) in Hnan. congruence.
Qed.

Lemma ratio_test_rejects_nan_witness :
  ratio_test (mkDMatch 0 0 0 1) (mkDMatch 0 1 0 nan) = false.
Proof.
  apply ratio_test_rejects_nan. right. reflexivity.
Defined.

(** ** [min] and [max] of a list *)

Lemma min_fold_extreme seen best rest :
  best ∈ seen →
  (∀ v, v ∈ seen → (v <? best)%float = false) →
  let m := foldl (λ best item, if (item <? best)%float then item else best)
                 best rest in
  m ∈ seen ++ rest ∧ ∀ v, v ∈ seen ++ rest → (v <? m)%float = false.
Proof.
  induction rest as [|item rest IH] in seen, best |- *; intros Hin Hlow; simpl.
  { by rewrite app_nil_r. }
  rewrite (assoc_L (++) seen [item] rest : seen ++ item :: rest = _).
  apply IH.
  - destruct (item <? best)%float; apply elem_of_app; [right; left|by left].
  - intros v Hv. apply elem_of_app in Hv as [Hv|Hv];
      [|apply list_elem_of_singleton in Hv as ->].
    + destruct (item <? best)%float eqn:Hlt; [|by apply Hlow].
      apply not_true_is_false. intros Hv'.
      pose proof (ltb_trans _ _ _ Hv' Hlt). rewrite Hlow in H; done.
    + destruct (item <? best)%float eqn:Hlt; [apply ltb_irrefl|done].
Qed.

Lemma max_fold_extreme seen best rest :
  best ∈ seen →
  (∀ v, v ∈ seen → (best <? v)%float = false) →
  let m := foldl (λ best item, if (best <? item)%float then item else best)
                 best rest in
  m ∈ seen ++ rest ∧ ∀ v, v ∈ seen ++ rest → (m <? v)%float = false.
Proof.
  induction rest as [|item rest IH] in seen, best |- *; intros Hin Hhigh; simpl.
  { by rewrite app_nil_r. }
  rewrite (assoc_L (++) seen [item] rest : seen ++ item :: rest = _).
  apply IH.
  - destruct (best <? item)%float; apply elem_of_app; [right; left|by left].
  - intros v Hv. apply elem_of_app in Hv as [Hv|Hv];
      [|apply list_elem_of_singleton in Hv as ->].
    + destruct (best <? item)%float eqn:Hlt; [|by apply Hhigh].
      apply not_true_is_false. intros Hv'.
      pose proof (ltb_trans _ _ _ Hlt Hv'). rewrite Hhigh in H; done.
    + destruct (best <? item)%float eqn:Hlt; [apply ltb_irrefl|done].
Qed.

Lemma py_min_extreme l m :
  Visualizer.py_min l = inr m →
  m ∈ l ∧ ∀ v, v ∈ l → (v <? m)%float = false.
Proof.
  destruct l as [|first rest]; [done|]. intros [= <-].
  apply (min_fold_extreme [first] first rest); [set_solver|].
  intros v ->%list_elem_of_singleton. apply ltb_irrefl.
Qed.

Lemma py_max_extreme l m :
  Visualizer.py_max l = inr m →
  m ∈ l ∧ ∀ v, v ∈ l → (m <? v)%float = false.
Proof.
  destruct l as [|first rest]; [done|]. intros [= <-].
  apply (max_fold_extreme [first] first rest); [set_solver|].
  intros v ->%list_elem_of_singleton. apply ltb_irrefl.
Qed.

Lemma py_min_snoc l x : ∃ m, Visualizer.py_min (l ++ [x]) = inr m.
Proof. destruct l; by eexists. Qed.

Lemma py_max_snoc l x : ∃ m, Visualizer.py_max (l ++ [x]) = inr m.
Proof. destruct l; by eexists. Qed.

Lemma extremes_of l lo hi :
  Visualizer.py_min l = inr lo → Visualizer.py_max l = inr hi →
  extremes l lo hi.
Proof.
  intros [Hlo Hlow]%py_min_extreme [Hhi Hhigh]%py_max_extreme.
  split; [done|]. split; [done|]. split; [by auto|].
  intros Hnan v Hv. rewrite Forall_forall in Hnan.
  split; apply ltb_false_leb; auto.
Qed.

(** ** Running the visualizer *)

Lemma run_prog_bind {A B} mpl (p : Visualizer.prog A) (f : A → Visualizer.prog B) :
  Visualizer.run mpl (Visualizer.prog_bind p f)
  = Visualizer.run mpl (f (Visualizer.run mpl p)).
Proof. induction p as [a|X c k IH]; simpl; [done|apply IH]. Qed.

Lemma trace_prog_bind {A B} mpl (p : Visualizer.prog A) (f : A → Visualizer.prog B) :
  Visualizer.trace mpl (Visualizer.prog_bind p f)
  = Visualizer.trace mpl p ++ Visualizer.trace mpl (f (Visualizer.run mpl p)).
Proof. induction p as [a|X c k IH]; simpl; [done|by rewrite IH]. Qed.

(** A run of [update]: the point is recorded, then the six calls of the
    redraw are made in turn. *)
Lemma run_update mpl x y z self :
  ∃ xlo xhi ylo yhi zlo zhi,
    let self' := recorded self x y z in
    Visualizer.py_min (Visualizer.xs self') = inr xlo ∧
    Visualizer.py_max (Visualizer.xs self') = inr xhi ∧
    Visualizer.py_min (Visualizer.zs self') = inr ylo ∧
    Visualizer.py_max (Visualizer.zs self') = inr yhi ∧
    Visualizer.py_min (Visualizer.ys self') = inr zlo ∧
    Visualizer.py_max (Visualizer.ys self') = inr zhi ∧
    Visualizer.run mpl (Visualizer.update x y z self)
    = match first_failure mpl (redraw self' xlo xhi ylo yhi zlo zhi) with
      | None => Visualizer.Returned () self'
      | Some e => Visualizer.Raised e self'
      end ∧
    Visualizer.trace mpl (Visualizer.update x y z self)
    = issued_in_turn mpl (redraw self' xlo xhi ylo yhi zlo zhi).
Proof.
  destruct (py_min_snoc (Visualizer.xs self) x) as [xlo Hxlo],
           (py_max_snoc (Visualizer.xs self) x) as [xhi Hxhi],
           (py_min_snoc (Visualizer.zs self) z) as [ylo Hylo],
           (py_max_snoc (Visualizer.zs self) z) as [yhi Hyhi],
           (py_min_snoc (Visualizer.ys self) y) as [zlo Hzlo],
           (py_max_snoc (Visualizer.ys self) y) as [zhi Hzhi].
  exists xlo, xhi, ylo, yhi, zlo, zhi. simpl. do 6 (split; [done|]).
  unfold Visualizer.update, mbind, Visualizer.V_bind, Visualizer.get,
    Visualizer.put, Visualizer.call, Visualizer.lift, recorded.
  simpl.
  destruct (mpl _ (Visualizer.Line_set_data _ _ _)) as [?|[]]; simpl; [done|].
  destruct (mpl _ (Visualizer.Line_set_3d_properties _ _)) as [?|[]]; simpl;
    [done|].
  rewrite Hxlo, Hxhi. simpl.
  destruct (mpl _ (Visualizer.Axes_set_xlim _ _ _)) as [?|[]]; simpl; [done|].
  rewrite Hylo, Hyhi. simpl.
  destruct (mpl _ (Visualizer.Axes_set_ylim _ _ _)) as [?|[]]; simpl; [done|].
  rewrite Hzlo, Hzhi. simpl.
  destruct (mpl _ (Visualizer.Axes_set_zlim _ _ _)) as [?|[]]; simpl; [done|].
  by destruct (mpl _ (Visualizer.plt_pause _)) as [?|[]].
Qed.

Lemma first_failure_raised mpl cs e :
  first_failure mpl cs = Some e →
  ∃ c : Visualizer.mpl_call (),
    Visualizer.Drawn c ∈ issued_in_turn mpl cs ∧ mpl _ c = inl e.
Proof.
  induction cs as [|c cs IH]; simpl; [done|].
  destruct (mpl _ c) as [e'|[]] eqn:Hc.
  - intros [= <-]. exists c. split; [left|done].
  - intros (c' & Hin & Hc')%IH. exists c'. split; [by right|done].
Qed.

Lemma first_failure_answers mpl cs :
  answers mpl →
  first_failure mpl cs = None ∧
  issued_in_turn mpl cs = Visualizer.Drawn <$> cs.
Proof.
  intros Hmpl. induction cs as [|c cs [IH1 IH2]]; simpl; [done|].
  destruct (Hmpl _ c) as [[] ->]. by rewrite IH2.
Qed.

Lemma update_state mpl x y z self :
  Visualizer.state_of (Visualizer.run mpl (Visualizer.update x y z self))
  = recorded self x y z.
Proof.
  destruct (run_update mpl x y z self)
    as (xlo & xhi & ylo & yhi & zlo & zhi & _ & _ & _ & _ & _ & _ & -> & _).
  by destruct (first_failure _ _).
Qed.

Lemma after_updates_cons mpl x y z points self :
  after_updates mpl ((x, y, z) :: points) self
  = after_updates mpl points (recorded self x y z).
Proof. unfold after_updates. cbn [foldl]. by rewrite update_state. Qed.

(** ** The visualizer on small inputs *)

Example min_keeps_leading_nan :
  Visualizer.py_min [nan; 1]%float = inr nan ∧
  Visualizer.py_min [1; nan]%float = inr 1%float ∧
  Visualizer.py_min [] = inl (Visualizer.ValueError_empty_sequence "min").
Proof. by repeat split. Qed.

Example update_on_broken_canvas :
  Visualizer.run mpl_broken (Visualizer.update 2 (-3) 4 two_points)
  = Visualizer.Raised (Visualizer.mpl_error "no display")
      (recorded two_points 2 (-3) 4).
Proof. reflexivity. Qed.

Example update_limits :
  Visualizer.trace mpl_canvas (Visualizer.update 2 (-3) 4 two_points)
  = [ Visualizer.Drawn (Visualizer.Line_set_data 3%nat [0; 1; 2] [0; 5; 4]);
      Visualizer.Drawn (Visualizer.Line_set_3d_properties 3%nat [0; -1; -3]);
      Visualizer.Drawn (Visualizer.Axes_set_xlim 2%nat (-2) 4);
      Visualizer.Drawn (Visualizer.Axes_set_ylim 2%nat (-2) 7);
      Visualizer.Drawn (Visualizer.Axes_set_zlim 2%nat (-5) 2);
      Visualizer.Drawn (Visualizer.plt_pause 0.001) ]%float.
Proof. reflexivity. Qed.

Example close_with_empty_path :
  Visualizer.trace mpl_canvas (Visualizer.close (Some EmptyString) two_points)
  = [ Visualizer.Drawn Visualizer.plt_ioff;
      Visualizer.Drawn Visualizer.plt_show ].
Proof. reflexivity. Qed.

Example close_with_path :
  omap saved_to
    (Visualizer.trace mpl_canvas (Visualizer.close (Some "run.png") two_points))
  = ["run.png"].
Proof. reflexivity. Qed.

(** ** The visualizer's properties *)

(** X10: [update] records the point before it draws and never applies
    [min] or [max] to an empty list: whatever matplotlib does, the instance
    afterwards holds the three coordinates appended to its three lists and
    the same figure, axes and line, and an exception, if any, is one that a
    call of the redraw raised. *)
Theorem update_records_point mpl x y z self :
  Visualizer.state_of (Visualizer.run mpl (Visualizer.update x y z self))
  = recorded self x y z ∧
  ∀ e self',
    Visualizer.run mpl (Visualizer.update x y z self) = Visualizer.Raised e self' →
    ∃ c : Visualizer.mpl_call (),
      Visualizer.Drawn c ∈ Visualizer.trace mpl (Visualizer.update x y z self) ∧
      mpl _ c = inl e.
Proof.
  split; [apply update_state|]. intros e self'.
  destruct (run_update mpl x y z self)
    as (xlo & xhi & ylo & yhi & zlo & zhi & _ & _ & _ & _ & _ & _ & -> & ->).
  destruct (first_failure _ _) as [e'|] eqn:Hfail; [|done].
  intros [= <- _]. by apply first_failure_raised.
Qed.

(** X11: after any series of [update] calls, whether or not some of them
    raised while drawing, the three lists hold the coordinates of all the
    points in the order of the calls, after what they held before; they
    keep equal lengths, and the figure, axes and line are the ones the
    instance had. *)
Theorem updates_accumulate mpl points self :
  let self' := after_updates mpl points self in
  Visualizer.xs self' = Visualizer.xs self ++ ((λ p, p.1.1) <$> points) ∧
  Visualizer.ys self' = Visualizer.ys self ++ ((λ p, p.1.2) <$> points) ∧
  Visualizer.zs self' = Visualizer.zs self ++ ((λ p, p.2) <$> points) ∧
  Visualizer.fig self' = Visualizer.fig self ∧
  Visualizer.ax self' = Visualizer.ax self ∧
  Visualizer.line self' = Visualizer.line self ∧
  (length (Visualizer.xs self) = length (Visualizer.ys self) →
   length (Visualizer.ys self) = length (Visualizer.zs self) →
   length (Visualizer.xs self') = length (Visualizer.ys self') ∧
   length (Visualizer.ys self') = length (Visualizer.zs self')).
Proof.
  cbv zeta.
  induction points as [|[[x y] z] points IH] in self |- *.
  { unfold after_updates. simpl. rewrite !app_nil_r. done. }
  rewrite after_updates_cons.
  destruct (IH (recorded self x y z)) as (-> & -> & -> & -> & -> & -> & _).
  simpl. rewrite <-!app_assoc. simpl. do 6 (split; [done|]).
  intros Hxy Hyz. rewrite !length_app. simpl. rewrite !length_fmap. lia.
Qed.


Lemma canvas_answers : answers mpl_canvas.
Proof. intros X c. destruct c; by eexists. Qed.



Lemma run_for_each mpl items (f : Visualizer.handle → Visualizer.mpl_call ()) :
  answers mpl →
  Visualizer.run mpl
    (Visualizer.for_each items (λ item, Visualizer.P_call (f item))) = inr () ∧
  Visualizer.trace mpl
    (Visualizer.for_each items (λ item, Visualizer.P_call (f item)))
  = Visualizer.Drawn ∘ f <$> items.
Proof.
  intros Hmpl. induction items as [|item items [IHrun IHtrace]]; [done|].
  simpl. unfold mbind, Visualizer.P_bind, Visualizer.P_call. simpl.
  destruct (Hmpl _ (f item)) as [[] ->]. simpl.
  unfold mbind, Visualizer.P_bind, Visualizer.P_call in IHrun, IHtrace.
  by rewrite IHrun, IHtrace.
Qed.

Section Init.
Context (mpl : Visualizer.mpl_impl) (fig ax legend : Visualizer.handle).
Context (spines lines texts : list Visualizer.handle).
Hypothesis Hmpl : answers mpl.
Hypothesis Hfig : mpl _ (Visualizer.plt_figure (8, 8)) = inr fig.
Hypothesis Hax : mpl _ (Visualizer.Figure_add_subplot fig 111 "3d") = inr ax.
Hypothesis Hspines : mpl _ (Visualizer.Axes_spines_values ax) = inr spines.
Hypothesis Hlines :
  mpl _ (Visualizer.Axes_plot ax [] [] [] "#ff0055" 2 "Camera Path") = inr lines.
Hypothesis Hlegend : mpl _ (Visualizer.Axes_legend ax "#2b2b2b" "white") = inr legend.
Hypothesis Htexts : mpl _ (Visualizer.Legend_get_texts legend) = inr texts.

(** Rewrites the next call of the goal with its answer. *)
Ltac answer_call :=
  match goal with
  | |- context [mpl ?X ?c] =>
      first [ rewrite Hfig | rewrite Hax | rewrite Hspines | rewrite Hlines
            | rewrite Hlegend | rewrite Htexts
            | let H := fresh in destruct (Hmpl X c) as [[] H]; rewrite H; clear H ];
      simpl
  end.

Lemma run_init :
  Visualizer.run mpl Visualizer.__init__
  = match lines with
    | [line] => inr (Visualizer.mkVisualizer fig ax [] [] [] line)
    | _ => inl (Visualizer.ValueError_unpack 1 (length lines))
    end ∧
  Visualizer.trace mpl Visualizer.__init__
  = set_up_calls fig ax spines ++ match lines with
                                  | [line] => legend_calls ax legend texts
                                  | _ => []
                                  end.
Proof.
  unfold Visualizer.__init__, set_up_calls, legend_calls.
  unfold mbind, Visualizer.P_bind.
  unfold Visualizer.P_call at 1 2 3 4 5 6 7 8 9 10 11 12 14 15 16 17 18 19 20 21.
  simpl. do 12 answer_call.
  rewrite run_prog_bind, trace_prog_bind.
  destruct (run_for_each mpl spines
              (λ spine, Visualizer.Spine_set_color spine "white") Hmpl)
    as [-> ->].
  simpl. do 5 answer_call.
  unfold mret, Visualizer.P_ret, Visualizer.P_raise.
  destruct lines as [|line [|? ?]]; simpl;
    [by rewrite app_nil_r| |by rewrite app_nil_r].
  do 3 answer_call.
  rewrite run_prog_bind, trace_prog_bind.
  destruct (run_for_each mpl texts
              (λ text, Visualizer.Text_set_color text "white") Hmpl)
    as [-> ->].
  simpl. by rewrite app_nil_r, <-app_assoc.
Qed.

End Init.



(** ** The verification block *)

